(** * Micro-benchmark notebook: timing harness and analytic cost models

    A shallow embedding of the code cells of [mirco-benchmark.ipynb]:
    [var_dict], [walltime], the matrix-multiplication sweep, the elementwise
    (memory bandwidth) sweep and [layer_benchmark].

    Python [int]s are [Z], Python [float]s are the kernel's binary64 floats,
    dictionaries are [gmap]s, exceptions are an error monad, and the calls
    into [torch] (tensor allocation, the benchmark timer) are the methods of
    an interface that threads the state of the outside world. The median of
    a measurement is computed from its per-batch times the way
    [torch.utils.benchmark] computes it. *)

From Stdlib Require Import ZArith Floats Sorted.
From stdpp Require Import base option list strings gmap pretty.

Local Open Scope Z_scope.

(** ** Exceptions *)

(** The exception classes the notebook's own code can raise, and the ones
    that come out of a library call, kept by class name. *)
Inductive exn : Type :=
  | IndexError
  | ZeroDivisionError
  | OverflowError
  | LibraryError (cls : string).

Inductive result (A : Type) : Type :=
  | Ok (a : A)
  | Raise (e : exn).
Arguments Ok {A} a.
Arguments Raise {A} e.

#[global] Instance result_ret : MRet result := λ A a, Ok a.
#[global] Instance result_bind : MBind result := λ A B f r,
  match r with
  | Ok a => f a
  | Raise e => Raise e
  end.

(** ** Library objects and identity *)

Inductive Dtype : Type := float32 | float16.

#[global] Instance Dtype_eq_dec : EqDecision Dtype.
Proof. solve_decision. Defined.

#[global] Instance Dtype_countable : Countable Dtype.
Proof.
  refine (inj_countable' (λ d, match d with float32 => true | float16 => false end)
                         (λ b : bool, if b then float32 else float16) _).
  by intros [].
Defined.

(** [tensor.element_size()], in bytes. *)
Definition element_size (d : Dtype) : Z :=
  match d with float32 => 4 | float16 => 2 end.

(** What the notebook knows of an object: a tensor by shape and dtype, a
    module (a layer) by its class, an [int] by its value. *)
Inductive PyVal : Type :=
  | Tensor (shape : list Z) (dtype : Dtype)
  | Module (cls : string)
  | Int (z : Z).

#[global] Instance PyVal_eq_dec : EqDecision PyVal.
Proof. solve_decision. Defined.

(** An object is a value at an address; [x is y] compares addresses,
    [x == y] would compare values. *)
Record Obj : Type := mkObj { obj_id : N; obj_val : PyVal }.

#[global] Instance Obj_eq_dec : EqDecision Obj.
Proof. solve_decision. Defined.

Definition py_is (x y : Obj) : Prop := obj_id x = obj_id y.

#[global] Instance py_is_dec x y : Decision (py_is x y).
Proof. unfold py_is. apply _. Defined.

(** CPython allocates one object for each [int] from -5 to 256 when it
    starts, and every expression with one of these values, a literal as
    well as a computed number, evaluates to that object: [n = 5] binds [n]
    to the object that the literal [5] is anywhere else. The addresses of
    these objects are numbered from [small_int_base] here. The object of
    an [int] outside the range is not determined by its value, and the
    model gives it no address. *)
Definition small_int_base : N := 4294967296.

Definition small_int (z : Z) : option Obj :=
  if bool_decide (-5 ≤ z ≤ 256)
  then Some (mkObj (small_int_base + Z.to_N (z + 5)) (Int z))
  else None.

(** ** [var_dict] *)

(** A frame's local variables in the order of [f_locals.items()]. A local
    that is the object of no argument of a call does not change what
    [var_dict] returns (this is proved below), so a frame may leave such
    locals out: the frames of the notebook's own calls, whose arguments are
    tensors and a module, list the names bound to tensors and modules and
    leave out the ones bound to [int]s, [float]s, [str]s, dtypes, lists and
    tables. *)
Abbreviation Frame := (list (string * Obj)).

(** [[(name, val) for name, val in callers_local_vars if val is arg]] *)
Definition matching (callers_local_vars : Frame) (arg : Obj) : Frame :=
  filter (λ item, py_is item.2 arg) callers_local_vars.

(** [lst[0]] *)
Definition item0 {A} (lst : list A) : result A :=
  match lst with
  | [] => Raise IndexError
  | x :: _ => Ok x
  end.

(** The generator [(... [0] for arg in args)], pulled to its end. *)
Fixpoint pairs_of (callers_local_vars : Frame) (args : list Obj) : result Frame :=
  match args with
  | [] => Ok []
  | arg :: args' =>
      item ← item0 (matching callers_local_vars arg);
      items ← pairs_of callers_local_vars args';
      mret (item :: items)
  end.

(** [dict(pairs)]: pairs are inserted from left to right, a later pair
    replaces an earlier one with the same key. *)
Definition py_dict {V} (pairs : list (string * V)) : gmap string V :=
  fold_left (λ d item, <[item.1 := item.2]> d) pairs ∅.

(** [var_dict] on its positional arguments. The caller's frame, which the
    code reads through [inspect.currentframe().f_back], is an explicit
    argument. *)
Definition var_dict (callers_local_vars : Frame) (args : list Obj)
  : result (gmap string Obj) :=
  items ← pairs_of callers_local_vars args;
  mret (py_dict items).

(** ** Python arithmetic on [int] and [float] *)

(** [float(z)] for an [int]: rounded to the nearest binary64 value, ties to
    even; [OverflowError] when the result is out of range. *)
Definition float_of_int (z : Z) : result float :=
  let f := SF2Prim (binary_normalize prec emax z 0 false) in
  if PrimFloat.is_infinity f then Raise OverflowError else Ok f.

(** [x / y] on two [float]s. *)
Definition truediv (x y : float) : result float :=
  if PrimFloat.eqb y 0%float then Raise ZeroDivisionError else Ok (x / y)%float.

(** [z / y] with [z] an [int] and [y] a [float]. *)
Definition int_truediv (z : Z) (y : float) : result float :=
  x ← float_of_int z;
  truediv x y.

(** ** The median of a list of durations *)

(** The durations in ascending order. *)
Fixpoint insert_sorted (x : float) (l : list float) : list float :=
  match l with
  | [] => [x]
  | y :: l' => if PrimFloat.leb x y then x :: l else y :: insert_sorted x l'
  end.

Definition sort_floats (l : list float) : list float := foldr insert_sorted [] l.

(** [torch.lerp(start, end, weight)] on one element. *)
Definition lerp (start end_ weight : float) : float :=
  if PrimFloat.ltb (abs weight) 0.5
  then (start + weight * (end_ - start))%float
  else (end_ - (end_ - start) * (1 - weight))%float.

(** [torch.tensor(xs, dtype=torch.float64).quantile(.5)] for a list that is
    not empty: a [nan] among the elements gives [nan]; otherwise the
    elements are sorted and the two at the ranks below and above
    [.5 * (n - 1)] are interpolated, with weight 0 when that rank is a
    whole number ([n] odd, the two ranks are one) and 1/2 when it is not. *)
Definition quantile_half (xs : list float) : float :=
  if existsb PrimFloat.is_nan xs then nan
  else
    let sorted := sort_floats xs in
    let n := length xs in
    lerp (nth ((n - 1) / 2) sorted 0%float) (nth (n / 2) sorted 0%float)
         (if Nat.even n then 0.5 else 0)%float.

(** ** The library interface *)

(** What the notebook uses of [torch]: tensor allocation on the device, the
    conversion to half precision, and the benchmark timer with the
    measurement it returns. Every call runs in the outside world and may
    raise. *)
Class Torch : Type := {
  World : Type;
  Measurement : Type;
  (** [torch.randn(shape..., dtype=dtype, device='mps')] *)
  randn : list Z → Dtype → World → result Obj * World;
  (** [tensor.half()] *)
  half : Obj → World → result Obj * World;
  (** [benchmark.Timer(stmt=stmt, globals=globals_).blocked_autorange(
      min_run_time=min_run_time)] *)
  blocked_autorange :
    string → gmap string Obj → Z → World → result Measurement * World;
  (** [measurement.times]: one duration per collected batch. *)
  times : Measurement → list float;
}.

Section harness.
Context {T : Torch}.

(** *** The statistics of a measurement

    As [torch.utils.benchmark] computes them from the [times] of a
    measurement when one of them is read for the first time. *)

(** The median a measurement holds once its statistics are computed: the
    [quantile(.5)] of its times, and -1 as long as it has no times. *)
Definition median (measurement : Measurement) : float :=
  match times measurement with
  | [] => (-1)%float
  | _ :: _ => quantile_half (times measurement)
  end.

(** [measurement.median], read from a measurement that the timer has just
    returned. The read computes the statistics and, for the warnings of the
    measurement, divides the interquartile range by the median: a median of
    zero raises [ZeroDivisionError] there, and any other median is
    returned. *)
Definition read_median (measurement : Measurement) : result float :=
  if PrimFloat.eqb (median measurement) 0 then Raise ZeroDivisionError
  else Ok (median measurement).

(** A computation of the notebook: it runs in a world, leaves a world, and
    returns a value or raises. *)
Definition M (A : Type) : Type := World → result A * World.

#[global] Instance M_ret : MRet M := λ A a w, (Ok a, w).
#[global] Instance M_bind : MBind M := λ A B f m w,
  match m w with
  | (Ok a, w') => f a w'
  | (Raise e, w') => (Raise e, w')
  end.

(** A computation that does not touch the world. *)
Definition lift {A} (r : result A) : M A := λ w, (r, w).

(** [for x in xs: body], with the variables the body assigns as [st]. *)
Fixpoint for_ {A S} (xs : list A) (body : A → S → M S) (st : S) : M S :=
  match xs with
  | [] => mret st
  | x :: xs' => st' ← body x st; for_ xs' body st'
  end.

(** *** [walltime] *)

(** [duration] is 5 when the caller leaves it out, as every caller of the
    notebook does. *)
Definition walltime (stmt : string) (arg_dict : gmap string Obj)
    (duration : Z) : M float :=
  measurement ← blocked_autorange stmt arg_dict duration;
  lift (read_median measurement).

End harness.

(** ** Result tables *)

(** [d[k1][k2] = v] on a [defaultdict(lambda: {})]: a missing [d[k1]] is
    created empty first. *)
Definition setitem2 {K1 K2 V} `{Countable K1, Countable K2}
    (k1 : K1) (k2 : K2) (v : V) (d : gmap K1 (gmap K2 V)) : gmap K1 (gmap K2 V) :=
  <[k1 := <[k2 := v]> (default ∅ (d !! k1))]> d.

(** The entry of a table at a column (outer key) and a row (inner key). *)
Definition cell {K1 K2 V} `{Countable K1, Countable K2}
    (df : gmap K1 (gmap K2 V)) (col : K1) (row : K2) : option V :=
  df !! col ≫= (.!! row).

(** The keys of all entries of a table. *)
Definition cells {K1 K2 V} `{Countable K1, Countable K2}
    (df : gmap K1 (gmap K2 V)) : gset (K1 * K2) :=
  map_fold (λ col rows acc, set_map (λ row, (col, row)) (dom rows) ∪ acc) ∅ df.

(** ** Module-level names *)

(** [name = val] in a namespace: an existing name keeps its place. *)
Fixpoint setvar (name : string) (val : Obj) (ns : Frame) : Frame :=
  match ns with
  | [] => [(name, val)]
  | (k, v) :: ns' =>
      if decide (k = name) then (k, val) :: ns' else (k, v) :: setvar name val ns'
  end.

(** [del name] *)
Definition delvar (name : string) (ns : Frame) : Frame :=
  filter (λ item, item.1 ≠ name) ns.

(** [name = value] for a value that is neither a tensor nor a module (an
    [int], a [float], a dtype, a table): the name is bound to that value
    from then on, and so it leaves the names that the namespace lists. *)
Definition setplain (name : string) (ns : Frame) : Frame := delvar name ns.


(** ** Analytic cost models *)

(** [count / t / scale], the shape of every throughput expression of the
    module-level cells: [count] an [int], [t] the measured time. *)
Definition rate (count : Z) (t scale : float) : result float :=
  x ← int_truediv count t;
  truediv x scale.

(** [2*n**3], the matrix-multiplication numerator. *)
Definition matmul_flop (n : Z) : Z := 2 * n ^ 3.

(** [8 * n], the numerator of the ['GB/s'] entry. *)
Definition vector_bytes (n : Z) : Z := 8 * n.

(** [ffn = 16*b*s*h*h / 1e12] *)
Definition ffn_flop (b s h : Z) : Z := 16 * b * s * h * h.
Definition ffn (b s h : Z) : result float := int_truediv (ffn_flop b s h) 1e12.

(** [atten = (4*b*h*s*s + 8*b*s*h*h) / 1e12] *)
Definition atten_flop (b s h : Z) : Z := 4 * b * h * s * s + 8 * b * s * h * h.
Definition atten (b s h : Z) : result float := int_truediv (atten_flop b s h) 1e12.

(** [forward = ffn + (2 if cross_attention else 1) * atten] *)
Definition forward (cross_attention : bool) (b s h : Z) : result float :=
  ffn_ ← ffn b s h;
  atten_ ← atten b s h;
  mret (ffn_ + (if cross_attention then 2 else 1) * atten_)%float.

(** ** The f-strings of [layer_benchmark] *)

(** [f'batch={b}'] *)
Definition batch_label (b : Z) : string := "batch=" +:+ pretty b.

(** [f'fwd seq_len={s}'] *)
Definition fwd_label (s : Z) : string := "fwd seq_len=" +:+ pretty s.

(** [f'fwd+bwd seq_len={s}'] *)
Definition fwd_bwd_label (s : Z) : string := "fwd+bwd seq_len=" +:+ pretty s.

(** [f'layer(X, {encoder_state})'] *)
Definition fwd_stmt (encoder_state : string) : string :=
  "layer(X, " +:+ encoder_state +:+ ")".

(** [f'layer(X, {encoder_state})[0].sum().backward()'] *)
Definition fwd_bwd_stmt (encoder_state : string) : string :=
  "layer(X, " +:+ encoder_state +:+ ")[0].sum().backward()".

(** [encoder_state = 'encoder_hidden_states=X' if cross_attention else ''] *)
Definition encoder_state (cross_attention : bool) : string :=
  if cross_attention then "encoder_hidden_states=X" else "".

Section cells.
Context {T : Torch}.

(** *** Matrix multiplication *)

(** The body of the inner loop, run in the notebook's namespace
    [globals_]: the cell is at module level, so the names it assigns are
    names of that namespace. *)
Definition matmul_body (n : Z) (dtype : Dtype)
    (st : Frame * gmap string (gmap Dtype float))
  : M (Frame * gmap string (gmap Dtype float)) :=
  let '(globals_, matmul_tflops) := st in
  a ← randn [n; n] dtype;
  let globals_ := setvar "a" a globals_ in
  b ← randn [n; n] dtype;
  let globals_ := setvar "b" b globals_ in
  arg_dict ← lift (var_dict globals_ [a; b]);
  t ← walltime "a @ b" arg_dict 5;
  let globals_ := setplain "t" globals_ in
  v ← lift (rate (matmul_flop n) t 1e12);
  let matmul_tflops := setitem2 ("n=" +:+ pretty n) dtype v matmul_tflops in
  let globals_ := delvar "b" (delvar "a" globals_) in
  mret (globals_, matmul_tflops).

(** The cell: the table is bound to [matmul_tflops], and the two loops bind
    [n] and [dtype] before every run of their bodies. *)
Definition matmul_cell (globals_ : Frame)
  : M (Frame * gmap string (gmap Dtype float)) :=
  let globals_ := setplain "matmul_tflops" globals_ in
  for_ [128; 512; 2048] (λ n st,
    for_ [float32; float16] (λ dtype st,
      matmul_body n dtype (setplain "dtype" st.1, st.2))
      (setplain "n" st.1, st.2)) (globals_, ∅).

(** *** Elementwise multiplication *)

Definition vector_body (n : Z) (st : Frame * gmap Z (gmap string float))
  : M (Frame * gmap Z (gmap string float)) :=
  let '(globals_, vector) := st in
  a ← randn [n] float32;
  let globals_ := setvar "a" a globals_ in
  arg_dict ← lift (var_dict globals_ [a]);
  t ← walltime "a * 1.2" arg_dict 5;
  let globals_ := setplain "t" globals_ in
  v ← lift (rate n t 1e12);
  let vector := setitem2 n "TFLOPS" v vector in
  v ← lift (rate (vector_bytes n) t 1e9);
  let vector := setitem2 n "GB/s" v vector in
  mret (globals_, vector).

(** The cell: the table is bound to [vector], and the loop binds [n]
    before every run of its body. *)
Definition vector_cell (globals_ : Frame)
  : M (Frame * gmap Z (gmap string float)) :=
  let globals_ := setplain "vector" globals_ in
  for_ [1024 * 64; 1024 * 256; 1024 * 512] (λ n st,
    vector_body n (setplain "n" st.1, st.2)) (globals_, ∅).

(** *** [layer_benchmark] *)

(** The frame of [layer_benchmark] at its two calls of [var_dict]: of its
    fourteen locals, [layer] (the first) and [X] (the last) are bound to a
    module and a tensor; the twelve between them are [int]s, [float]s,
    [str]s, lists, a [bool] and a table. *)
Definition layer_benchmark_locals (layer X : Obj) : Frame :=
  [("layer", layer); ("X", X)].

Definition layer_benchmark_body (layer : Obj) (h : Z) (cross_attention : bool)
    (encoder_state : string) (s b : Z) (results : gmap string (gmap string float))
  : M (gmap string (gmap string float)) :=
  forward_ ← lift (forward cross_attention b s h);
  X ← randn [b; s; h] float32 ≫= half;
  arg_dict ← lift (var_dict (layer_benchmark_locals layer X) [layer; X]);
  t ← walltime (fwd_stmt encoder_state) arg_dict 5;
  v ← lift (truediv forward_ t);
  let results := setitem2 (batch_label b) (fwd_label s) v results in
  arg_dict ← lift (var_dict (layer_benchmark_locals layer X) [layer; X]);
  t ← walltime (fwd_bwd_stmt encoder_state) arg_dict 5;
  v ← lift (truediv (3 * forward_)%float t);
  let results := setitem2 (batch_label b) (fwd_bwd_label s) v results in
  mret results.

Definition layer_benchmark (layer : Obj) (hidden_size : Z)
    (seq_lens batch_sizes : list Z) (cross_attention : bool)
  : M (gmap string (gmap string float)) :=
  let h := hidden_size in
  let encoder_state := encoder_state cross_attention in
  for_ seq_lens (λ s,
    for_ batch_sizes (λ b,
      layer_benchmark_body layer h cross_attention encoder_state s b)) ∅.

End cells.

(** ** A scripted library

    A deterministic stand-in for the library, used to run the notebook's
    code on concrete inputs: tensors get consecutive addresses, and each
    timer call consumes the next outcome of a script, either the per-batch
    times of a measurement or an exception. *)
Module Sim.

Record world : Type := mkWorld {
  next_id : N;
  script : list (result (list float));
}.

Definition alloc (v : PyVal) (w : world) : result Obj * world :=
  (Ok (mkObj (next_id w) v), mkWorld (N.succ (next_id w)) (script w)).

Definition to_half (v : PyVal) : PyVal :=
  match v with
  | Tensor shape _ => Tensor shape float16
  | Module cls => Module cls
  | Int z => Int z
  end.

Definition run_timer (w : world) : result (list float) * world :=
  match script w with
  | [] => (Ok [1%float], w)
  | outcome :: rest => (outcome, mkWorld (next_id w) rest)
  end.

#[export] Instance torch : Torch := {|
  World := world;
  Measurement := list float;
  randn shape dtype := alloc (Tensor shape dtype);
  half x := alloc (to_half (obj_val x));
  blocked_autorange _ _ _ := run_timer;
  times l := l;
|}.

Definition bert_layer : Obj := mkObj 0 (Module "BertLayer").

(** A world in which every timer call succeeds with one sample of one
    second, and tensors are allocated after [bert_layer]. *)
Definition quiet : world := mkWorld 1 [].

End Sim.

(** ** The sweeps the notebook runs

    The four calls of [layer_benchmark]. The layer and the hidden size come
    from the model library ([BertLayer(config)], [config.hidden_size] and
    the like) and are arguments here. *)
Section notebook_sweeps.
Context {T : Torch}.

(** [layer_benchmark(layer, config.hidden_size, [128, 512],
    [2, 4, 8, 16, 32, 64, 128])] *)
Definition bert_layer_sweep (layer : Obj) (hidden_size : Z)
  : M (gmap string (gmap string float)) :=
  layer_benchmark layer hidden_size [128; 512] [2; 4; 8; 16; 32; 64; 128] false.

(** [layer_benchmark(layer, config.n_embd, [512, 1024], [2, 4, 8, 16, 32, 64])] *)
Definition gpt2_block_sweep (layer : Obj) (n_embd : Z)
  : M (gmap string (gmap string float)) :=
  layer_benchmark layer n_embd [512; 1024] [2; 4; 8; 16; 32; 64] false.

(** [layer_benchmark(encoder, config.d_model, [512], [2, 4, 8, 16, 32, 64, 128])] *)
Definition t5_encoder_sweep (encoder : Obj) (d_model : Z)
  : M (gmap string (gmap string float)) :=
  layer_benchmark encoder d_model [512] [2; 4; 8; 16; 32; 64; 128] false.

(** [layer_benchmark(decoder, config.d_model, [512], [2, 4, 8, 16, 32, 64, 128],
    cross_attention=True)] *)
Definition t5_decoder_sweep (decoder : Obj) (d_model : Z)
  : M (gmap string (gmap string float)) :=
  layer_benchmark decoder d_model [512] [2; 4; 8; 16; 32; 64; 128] true.

End notebook_sweeps.

(** * Facts *)

(** ** The error monad *)

Lemma result_bind_Ok {A B} (r : result A) (f : A → result B) (b : B) :
  r ≫= f = Ok b ↔ ∃ a, r = Ok a ∧ f a = Ok b.
Proof.
  destruct r as [a|e]; simpl.
  - split; [by exists a | by intros (? & [= <-] & ?)].
  - split; [done | by intros (? & ? & _)].
Qed.

(** ** [var_dict] *)

Lemma elem_of_matching (locals : Frame) (arg : Obj) (item : string * Obj) :
  item ∈ matching locals arg ↔ item ∈ locals ∧ py_is item.2 arg.
Proof. unfold matching. rewrite list_elem_of_filter. tauto. Qed.

Lemma item0_Ok {A} (lst : list A) (x : A) : item0 lst = Ok x → x ∈ lst.
Proof. destruct lst; [done|]. intros [= <-]. left. Qed.

Lemma item0_Raise {A} (lst : list A) (e : exn) :
  item0 lst = Raise e → lst = [] ∧ e = IndexError.
Proof. destruct lst; [by intros [= <-] | done]. Qed.

(** Every pair the generator yields is a caller's local that is the very
    object of the argument at its position. *)
Lemma pairs_of_Ok (locals : Frame) (args : list Obj) (items : Frame) :
  pairs_of locals args = Ok items →
  Forall2 (λ arg item, item ∈ locals ∧ py_is item.2 arg) args items.
Proof.
  revert items. induction args as [|arg args IH]; intros items; simpl.
  - intros [= <-]. constructor.
  - intros (item & Hitem & (items' & Hitems & [= <-])%result_bind_Ok)%result_bind_Ok.
    constructor; [|by apply IH].
    by apply elem_of_matching, item0_Ok.
Qed.

(** [IndexError] is the only exception of the generator. *)
Lemma pairs_of_Raise (locals : Frame) (args : list Obj) (e : exn) :
  pairs_of locals args = Raise e → e = IndexError.
Proof.
  induction args as [|arg args IH]; simpl; [done|].
  destruct (item0 (matching locals arg)) as [item|e'] eqn:Hitem; simpl.
  - destruct (pairs_of locals args); simpl; [done|].
    intros [= <-]. by apply IH.
  - intros [= <-]. by apply item0_Raise in Hitem as [_ ->].
Qed.

Lemma pairs_of_unmatched (locals : Frame) (args : list Obj) (arg : Obj) :
  arg ∈ args →
  (∀ item, item ∈ locals → ¬ py_is item.2 arg) →
  pairs_of locals args = Raise IndexError.
Proof.
  intros Harg Hnone.
  destruct (pairs_of locals args) as [items|e] eqn:Hitems.
  - apply pairs_of_Ok in Hitems.
    apply list_elem_of_lookup in Harg as [i Hi].
    destruct (Forall2_lookup_l _ _ _ _ _ Hitems Hi) as (item & _ & Hin & His).
    by destruct (Hnone item Hin).
  - by rewrite (pairs_of_Raise _ _ _ Hitems).
Qed.

(** [dict(pairs)] holds, under every key of [pairs], the value of one of the
    pairs with that key; it holds nothing else. *)
Lemma py_dict_acc_lookup {V} (pairs : list (string * V)) (d : gmap string V) k v :
  fold_left (λ d item, <[item.1 := item.2]> d) pairs d !! k = Some v →
  (k, v) ∈ pairs ∨ d !! k = Some v.
Proof.
  revert d. induction pairs as [|[k' v'] pairs IH]; intros d; simpl; [by right|].
  intros [Hin|Hd]%IH; [left; by right|].
  destruct (decide (k' = k)) as [->|Hne].
  - rewrite lookup_insert_eq in Hd. injection Hd as ->. left. left.
  - rewrite lookup_insert_ne in Hd by done. by right.
Qed.

Lemma py_dict_lookup {V} (pairs : list (string * V)) k v :
  py_dict pairs !! k = Some v → (k, v) ∈ pairs.
Proof. by intros [?|?]%py_dict_acc_lookup. Qed.

Lemma py_dict_acc_is_Some {V} (pairs : list (string * V)) (d : gmap string V) k :
  k ∈ pairs.*1 ∨ is_Some (d !! k) →
  is_Some (fold_left (λ d item, <[item.1 := item.2]> d) pairs d !! k).
Proof.
  revert d. induction pairs as [|[k' v'] pairs IH]; intros d; simpl.
  - intros [Hin|?]; [|done]. by apply elem_of_nil in Hin.
  - intros [[->|Hin]%elem_of_cons|Hd]; apply IH.
    + right. rewrite lookup_insert_eq. by eexists.
    + by left.
    + right. rewrite lookup_insert. case_decide; [by eexists | done].
Qed.

Lemma py_dict_is_Some {V} (pairs : list (string * V)) k :
  k ∈ pairs.*1 → is_Some (py_dict pairs !! k).
Proof. intros. apply py_dict_acc_is_Some. by left. Qed.

(** In a frame no name is bound twice. *)
Lemma frame_lookup_unique (locals : Frame) name (val val' : Obj) :
  NoDup locals.*1 → (name, val) ∈ locals → (name, val') ∈ locals → val = val'.
Proof.
  intros Hnodup H1 H2.
  apply list_elem_of_lookup in H1 as [i Hi], H2 as [j Hj].
  assert (i = j) as ->.
  { eapply NoDup_lookup; [done| |].
    - by rewrite list_lookup_fmap, Hi.
    - by rewrite list_lookup_fmap, Hj. }
  congruence.
Qed.

(** C8. In the mapping [var_dict] returns, every argument is bound under the
    name of a caller's local that is that very object ([is], not [==]);
    every binding of the mapping is such a local; and a local that is a
    different object from every argument, equal to one by value or not, is
    not bound. *)
Theorem var_dict_binds_by_identity
    (locals : Frame) (args : list Obj) (d : gmap string Obj) :
  NoDup locals.*1 →
  var_dict locals args = Ok d →
  (∀ arg, arg ∈ args →
     ∃ name val, d !! name = Some val ∧ (name, val) ∈ locals ∧ py_is val arg) ∧
  (∀ name val, d !! name = Some val →
     (name, val) ∈ locals ∧ ∃ arg, arg ∈ args ∧ py_is val arg) ∧
  (∀ name val, (name, val) ∈ locals →
     (∀ arg, arg ∈ args → ¬ py_is val arg) → d !! name = None).
Proof.
  intros Hnodup (items & Hitems & [= <-])%result_bind_Ok.
  apply pairs_of_Ok in Hitems.
  assert (Hbound : ∀ name val, py_dict items !! name = Some val →
            (name, val) ∈ locals ∧ ∃ arg, arg ∈ args ∧ py_is val arg).
  { intros name val Hin%py_dict_lookup.
    apply list_elem_of_lookup in Hin as [i Hi].
    destruct (Forall2_lookup_r _ _ _ _ _ Hitems Hi) as (arg & Harg & Hloc & His).
    split; [done|]. exists arg. split; [|done]. by eapply list_elem_of_lookup_2. }
  split; [|split; [done|]].
  - intros arg [i Hi]%list_elem_of_lookup.
    destruct (Forall2_lookup_l _ _ _ _ _ Hitems Hi) as ([name val] & Hitem & Hloc & His).
    destruct (py_dict_is_Some items name) as [val' Hval'].
    { apply list_elem_of_fmap. exists (name, val). split; [done|].
      by eapply list_elem_of_lookup_2. }
    destruct (Hbound _ _ Hval') as [Hloc' _].
    rewrite <- (frame_lookup_unique _ _ _ _ Hnodup Hloc Hloc') in Hval'.
    by exists name, val.
  - intros name val Hloc Hnone.
    destruct (py_dict items !! name) as [val'|] eqn:Hval'; [|done].
    destruct (Hbound _ _ Hval') as (Hloc' & arg & Harg & His).
    rewrite (frame_lookup_unique _ _ _ _ Hnodup Hloc Hloc') in Hnone.
    by destruct (Hnone arg Harg).
Qed.

(** Two tensors equal by value at two addresses; only the one passed is
    bound. *)
Lemma var_dict_binds_by_identity_witness :
  let a := mkObj 1 (Tensor [2; 2] float32) in
  let a_copy := mkObj 2 (Tensor [2; 2] float32) in
  let locals := [("a_copy", a_copy); ("a", a)] in
  obj_val a = obj_val a_copy ∧
  ∃ d, var_dict locals [a] = Ok d ∧
       d !! "a" = Some a ∧ d !! "a_copy" = None.
Proof.
  intros a a_copy locals. split; [reflexivity|].
  assert (Hnodup : NoDup locals.*1) by (apply (bool_decide_unpack _); reflexivity).
  assert (Hrun : var_dict locals [a] = Ok {["a" := a]}) by reflexivity.
  destruct (var_dict_binds_by_identity locals [a] _ Hnodup Hrun)
    as (_ & _ & Hother).
  eexists. split; [exact Hrun|]. split; [reflexivity|].
  apply (Hother "a_copy" a_copy).
  - left.
  - intros arg ->%list_elem_of_singleton. unfold py_is. simpl. lia.
Defined.

(** The first local of a frame that is the object of an argument is the
    one binding when the argument is passed alone. *)
Lemma var_dict_single (locals : Frame) (arg : Obj) (name : string) (val : Obj) :
  (name, val) ∈ locals → py_is val arg →
  ∃ name' val', (name', val') ∈ locals ∧ py_is val' arg ∧
                var_dict locals [arg] = Ok {[ name' := val' ]}.
Proof.
  intros Hin His. unfold var_dict. simpl.
  destruct (matching locals arg) as [|[name' val'] rest] eqn:Hmatch.
  { assert ((name, val) ∈ matching locals arg) as Hitem
      by (by apply elem_of_matching).
    rewrite Hmatch in Hitem. by apply elem_of_nil in Hitem. }
  assert ((name', val') ∈ matching locals arg) as [? ?]%elem_of_matching
    by (rewrite Hmatch; left).
  by exists name', val'.
Qed.

(** C10, as stated, fails: the literal [5] is bound. With [n = 5] in the
    caller's frame, [var_dict(5)] finds the object of the literal in the
    frame, the interpreter keeping one object for the number, and returns
    [{'n': 5}]. *)
Lemma var_dict_binds_literal :
  ∃ five, small_int 5 = Some five ∧
          var_dict [("n", five)] [five] = Ok {[ "n" := five ]}.
Proof. by eexists. Qed.

(** C10, amended. When some positional argument is not the very object of
    any local of the caller's frame, as an object that is newly made for
    the call is not, [var_dict] raises [IndexError] and returns no mapping.
    A literal is not such an argument when the object it evaluates to is
    also the value of a local, as with the small [int]s that the
    interpreter shares: it is then bound under the name of a local that
    is that object. *)
Theorem var_dict_unbound_IndexError (locals : Frame) :
  (∀ args arg,
     arg ∈ args →
     (∀ item, item ∈ locals → ¬ py_is item.2 arg) →
     var_dict locals args = Raise IndexError) ∧
  (∀ z, -5 ≤ z ≤ 256 →
     ∃ literal,
       small_int z = Some literal ∧ obj_val literal = Int z ∧
       ∀ name, (name, literal) ∈ locals →
         ∃ name' val, (name', val) ∈ locals ∧ py_is val literal ∧
                      var_dict locals [literal] = Ok {[ name' := val ]}).
Proof.
  split.
  - intros args arg Harg Hnone. unfold var_dict.
    by rewrite (pairs_of_unmatched locals args arg Harg Hnone).
  - intros z Hz. unfold small_int. rewrite bool_decide_eq_true_2 by done.
    eexists. split_and!; [done..|].
    intros name Hin. by eapply var_dict_single.
Qed.

(** A temporary tensor passed next to a bound one, and the literal [128]
    passed where [n = 128] is a local. *)
Lemma var_dict_unbound_IndexError_witness :
  let a := mkObj 1 (Tensor [2; 2] float32) in
  let temporary := mkObj 7 (Tensor [2; 2] float32) in
  var_dict [("a", a)] [a; temporary] = Raise IndexError ∧
  ∃ literal, small_int 128 = Some literal ∧
             var_dict [("a", a); ("n", literal)] [literal] = Ok {[ "n" := literal ]}.
Proof.
  intros a temporary. split.
  - destruct (var_dict_unbound_IndexError [("a", a)]) as [Hunbound _].
    apply (Hunbound [a; temporary] temporary).
    + right. left.
    + intros item ->%list_elem_of_singleton. unfold py_is. simpl. lia.
  - assert (∃ literal, small_int 128 = Some literal) as [literal Hliteral]
      by by eexists.
    exists literal. split; [exact Hliteral|].
    destruct (var_dict_unbound_IndexError [("a", a); ("n", literal)])
      as [_ Hbound].
    destruct (Hbound 128) as (literal' & Hliteral' & _ & Hrun); [lia|].
    assert (literal' = literal) as -> by congruence.
    destruct (Hrun "n") as (name & val & Hin & His & ->); [right; left|].
    injection Hliteral as <-.
    apply elem_of_cons in Hin as [[= -> ->]|Hin%list_elem_of_singleton];
      [by vm_compute in His | by injection Hin as -> ->].
Defined.

(** ** Tables *)

Section tables.
Context {K1 K2 V : Type} `{Countable K1, Countable K2}.
Implicit Types d : gmap K1 (gmap K2 V).

Lemma elem_of_cells d k1 k2 : (k1, k2) ∈ cells d ↔ is_Some (cell d k1 k2).
Proof.
  unfold cells, cell.
  induction d as [|col rows d Hcol Hfold IH] using map_first_key_ind.
  - rewrite map_fold_empty. rewrite lookup_empty. simpl. split; [set_solver|].
    by intros [? ?].
  - rewrite map_fold_insert_first_key by done.
    rewrite elem_of_union, elem_of_map, IH. setoid_rewrite elem_of_dom.
    destruct (decide (col = k1)) as [->|Hne].
    + rewrite lookup_insert_eq, Hcol. simpl. split.
      * by intros [(row & [= <-] & ?)|[? ?]].
      * intros ?. left. by exists k2.
    + rewrite lookup_insert_ne by done. split; [|by right].
      by intros [(row & [= ? ?] & ?)|?].
Qed.

Lemma cell_setitem2 d k1 k2 v k1' k2' :
  cell (setitem2 k1 k2 v d) k1' k2' =
    if decide ((k1, k2) = (k1', k2')) then Some v else cell d k1' k2'.
Proof.
  unfold cell, setitem2.
  destruct (decide (k1 = k1')) as [<-|Hne1].
  - rewrite lookup_insert_eq. simpl.
    destruct (decide (k2 = k2')) as [<-|Hne2].
    + rewrite lookup_insert_eq. by rewrite decide_True.
    + rewrite lookup_insert_ne by done. rewrite decide_False by congruence.
      destruct (d !! k1); simpl; [done|]. by rewrite lookup_empty.
  - rewrite lookup_insert_ne by done. by rewrite decide_False by congruence.
Qed.

Lemma cells_setitem2 d k1 k2 v :
  cells (setitem2 k1 k2 v d) = {[ (k1, k2) ]} ∪ cells d.
Proof.
  apply set_eq. intros [k1' k2'].
  rewrite elem_of_union, elem_of_singleton, !elem_of_cells, cell_setitem2.
  case_decide as Heq.
  - split; [by left | by eexists].
  - split; [by right | by intros [?|?]; [congruence|]].
Qed.

Lemma cells_empty : cells (∅ : gmap K1 (gmap K2 V)) = ∅.
Proof. unfold cells. by rewrite map_fold_empty. Qed.

End tables.

(** ** Computations *)

Section harness_facts.
Context {T : Torch}.

Lemma bind_run {A B} (m : M A) (f : A → M B) w :
  (m ≫= f) w =
    match m w with
    | (Ok a, w') => f a w'
    | (Raise e, w') => (Raise e, w')
    end.
Proof. done. Qed.

Lemma bind_Ok {A B} (m : M A) (f : A → M B) a w w' :
  m w = (Ok a, w') → (m ≫= f) w = f a w'.
Proof. rewrite bind_run. by intros ->. Qed.

Lemma bind_Raise {A B} (m : M A) (f : A → M B) e w w' :
  m w = (Raise e, w') → (m ≫= f) w = (Raise e, w').
Proof. rewrite bind_run. by intros ->. Qed.

Lemma lift_run {A} (r : result A) w : lift r w = (r, w).
Proof. done. Qed.

Lemma for_app {A S} (xs ys : list A) (body : A → S → M S) st w :
  for_ (xs ++ ys) body st w = (for_ xs body st ≫= for_ ys body) w.
Proof.
  revert st w. induction xs as [|x xs IH]; intros st w; simpl; [reflexivity|].
  rewrite !bind_run. destruct (body x st w) as [[st'|e] w']; [|done].
  rewrite IH. by rewrite bind_run.
Qed.

Lemma for_fmap {A B S} (g : A → B) (xs : list A) (body : B → S → M S) st w :
  for_ (g <$> xs) body st w = for_ xs (λ x, body (g x)) st w.
Proof.
  revert st w. induction xs as [|x xs IH]; intros st w; simpl; [done|].
  rewrite !bind_run. destruct (body (g x) st w) as [[st'|e] w']; [|done].
  apply IH.
Qed.

(** Two nested loops run their body over the pairs in row-major order. *)
Lemma for_nested {A B S} (xs : list A) (ys : list B) (body : A → B → S → M S) st w :
  for_ xs (λ x, for_ ys (body x)) st w =
  for_ (list_prod xs ys) (λ p, body p.1 p.2) st w.
Proof.
  revert st w. induction xs as [|x xs IH]; intros st w; simpl; [done|].
  rewrite for_app, !bind_run.
  change (map (λ y, (x, y)) ys) with ((λ y, (x, y)) <$> ys).
  rewrite for_fmap. simpl.
  destruct (for_ ys (λ y, body x y) st w) as [[st'|e] w']; [|done].
  apply IH.
Qed.

(** A loop stops at the first iteration that raises. *)
Lemma for_Raise {A S} (pre post : list A) x (body : A → S → M S) st st' w w1 w2 e :
  for_ pre body st w = (Ok st', w1) →
  body x st' w1 = (Raise e, w2) →
  for_ (pre ++ x :: post) body st w = (Raise e, w2).
Proof.
  intros Hpre Hx. rewrite for_app, (bind_Ok _ _ _ _ _ Hpre). simpl.
  by rewrite (bind_Raise _ _ _ _ _ Hx).
Qed.

End harness_facts.

(** ** [var_dict] on locals that hold the arguments *)

Lemma pairs_of_bound (locals : Frame) (args : list Obj) :
  (∀ arg, arg ∈ args → ∃ item, item ∈ locals ∧ py_is item.2 arg) →
  ∃ items, pairs_of locals args = Ok items.
Proof.
  induction args as [|arg args IH]; intros Hbound; simpl; [by eexists|].
  destruct (Hbound arg) as (item & Hin & His); [left|].
  destruct (matching locals arg) as [|item' rest] eqn:Hmatch.
  { assert (item ∈ matching locals arg) as Hitem by by apply elem_of_matching.
    rewrite Hmatch in Hitem. by apply elem_of_nil in Hitem. }
  destruct IH as [items ->]; [intros; apply Hbound; by right|].
  by eexists.
Qed.

Lemma var_dict_bound (locals : Frame) (args : list Obj) :
  (∀ arg, arg ∈ args → ∃ item, item ∈ locals ∧ py_is item.2 arg) →
  ∃ d, var_dict locals args = Ok d.
Proof.
  intros [items Hitems]%pairs_of_bound. unfold var_dict. rewrite Hitems.
  by eexists.
Qed.

Section lift_facts.
Context {T : Torch}.

Lemma bind_lift_Ok {A B} (r : result A) (f : A → M B) a w :
  r = Ok a → (lift r ≫= f) w = f a w.
Proof. by intros ->. Qed.

Lemma bind_lift_Raise {A B} (r : result A) (f : A → M B) e w :
  r = Raise e → (lift r ≫= f) w = (Raise e, w).
Proof. by intros ->. Qed.

End lift_facts.

(** Run the next call of a computation with its recorded outcome. *)
Ltac run H :=
  first [ rewrite (bind_lift_Ok _ _ _ _ H)
        | rewrite (bind_Ok _ _ _ _ _ H)
        | rewrite (bind_lift_Raise _ _ _ _ H)
        | rewrite (bind_Raise _ _ _ _ _ H) ].

(** ** The order of [float]s and the median *)














(** ** [walltime] and [layer_benchmark] *)

Section sweep_facts.
Context {T : Torch}.

Lemma randn_half_Ok shape dtype X0 X w w1 w2 :
  randn shape dtype w = (Ok X0, w1) →
  half X0 w1 = (Ok X, w2) →
  (randn shape dtype ≫= half : M Obj) w = (Ok X, w2).
Proof. intros HX0 HX. by run HX0. Qed.

Lemma walltime_run stmt arg_dict duration m w w' :
  blocked_autorange stmt arg_dict duration w = (Ok m, w') →
  walltime stmt arg_dict duration w = (read_median m, w').
Proof. intros Hm. unfold walltime. by run Hm. Qed.

Lemma walltime_Ok stmt arg_dict duration m w w' :
  blocked_autorange stmt arg_dict duration w = (Ok m, w') →
  PrimFloat.eqb (median m) 0 = false →
  walltime stmt arg_dict duration w = (Ok (median m), w').
Proof.
  intros Hm Hnz. rewrite (walltime_run _ _ _ _ _ _ Hm).
  unfold read_median. by rewrite Hnz.
Qed.

Lemma walltime_zero stmt arg_dict duration m w w' :
  blocked_autorange stmt arg_dict duration w = (Ok m, w') →
  PrimFloat.eqb (median m) 0 = true →
  walltime stmt arg_dict duration w = (Raise ZeroDivisionError, w').
Proof.
  intros Hm Hz. rewrite (walltime_run _ _ _ _ _ _ Hm).
  unfold read_median. by rewrite Hz.
Qed.

Lemma walltime_Raise stmt arg_dict duration e w w' :
  blocked_autorange stmt arg_dict duration w = (Raise e, w') →
  walltime stmt arg_dict duration w = (Raise e, w').
Proof. intros Hm. unfold walltime. by run Hm. Qed.

Lemma truediv_Ok (x y : float) :
  PrimFloat.eqb y 0 = false → truediv x y = Ok (x / y)%float.
Proof. unfold truediv. by intros ->. Qed.

Lemma layer_benchmark_locals_bound layer X :
  ∃ d, var_dict (layer_benchmark_locals layer X) [layer; X] = Ok d.
Proof.
  apply var_dict_bound. intros arg Harg.
  apply elem_of_cons in Harg as [->|Harg].
  - exists ("layer", layer). split; [left | done].
  - apply list_elem_of_singleton in Harg as ->.
    exists ("X", X). split; [right; left | done].
Qed.

(** One sweep point whose library calls all succeed. *)
Lemma layer_benchmark_body_Ok layer h cross enc s b results
    f X0 X d t1 t2 w w1 w2 w3 w4 :
  forward cross b s h = Ok f →
  randn [b; s; h] float32 w = (Ok X0, w1) →
  half X0 w1 = (Ok X, w2) →
  var_dict (layer_benchmark_locals layer X) [layer; X] = Ok d →
  walltime (fwd_stmt enc) d 5 w2 = (Ok t1, w3) →
  PrimFloat.eqb t1 0 = false →
  walltime (fwd_bwd_stmt enc) d 5 w3 = (Ok t2, w4) →
  PrimFloat.eqb t2 0 = false →
  layer_benchmark_body layer h cross enc s b results w =
    (Ok (setitem2 (batch_label b) (fwd_bwd_label s) (3 * f / t2)%float
           (setitem2 (batch_label b) (fwd_label s) (f / t1)%float results)), w4).
Proof.
  intros Hf HX0 HX Hd Ht1 Hnz1 Ht2 Hnz2. unfold layer_benchmark_body.
  run Hf. run (randn_half_Ok _ _ _ _ _ _ _ HX0 HX).
  run Hd. run Ht1. run (truediv_Ok f _ Hnz1).
  run Hd. run Ht2. by run (truediv_Ok (3 * f) _ Hnz2).
Qed.

(** One sweep point whose forward timing raises. *)
Lemma layer_benchmark_body_fwd_Raise layer h cross enc s b results
    f X0 X d e w w1 w2 w3 :
  forward cross b s h = Ok f →
  randn [b; s; h] float32 w = (Ok X0, w1) →
  half X0 w1 = (Ok X, w2) →
  var_dict (layer_benchmark_locals layer X) [layer; X] = Ok d →
  walltime (fwd_stmt enc) d 5 w2 = (Raise e, w3) →
  layer_benchmark_body layer h cross enc s b results w = (Raise e, w3).
Proof.
  intros Hf HX0 HX Hd Ht1. unfold layer_benchmark_body.
  run Hf. run (randn_half_Ok _ _ _ _ _ _ _ HX0 HX).
  run Hd. by run Ht1.
Qed.

(** One sweep point whose forward and backward timing raises. *)
Lemma layer_benchmark_body_bwd_Raise layer h cross enc s b results
    f X0 X d t1 e w w1 w2 w3 w4 :
  forward cross b s h = Ok f →
  randn [b; s; h] float32 w = (Ok X0, w1) →
  half X0 w1 = (Ok X, w2) →
  var_dict (layer_benchmark_locals layer X) [layer; X] = Ok d →
  walltime (fwd_stmt enc) d 5 w2 = (Ok t1, w3) →
  PrimFloat.eqb t1 0 = false →
  walltime (fwd_bwd_stmt enc) d 5 w3 = (Raise e, w4) →
  layer_benchmark_body layer h cross enc s b results w = (Raise e, w4).
Proof.
  intros Hf HX0 HX Hd Ht1 Hnz1 Ht2. unfold layer_benchmark_body.
  run Hf. run (randn_half_Ok _ _ _ _ _ _ _ HX0 HX).
  run Hd. run Ht1. run (truediv_Ok f _ Hnz1).
  run Hd. by run Ht2.
Qed.

Lemma layer_benchmark_flat layer h ss bs cross w :
  layer_benchmark layer h ss bs cross w =
  for_ (list_prod ss bs)
    (λ p, layer_benchmark_body layer h cross (encoder_state cross) p.1 p.2) ∅ w.
Proof. unfold layer_benchmark. by rewrite for_nested. Qed.

End sweep_facts.

Lemma fwd_label_ne_fwd_bwd_label (s s' : Z) : fwd_label s ≠ fwd_bwd_label s'.
Proof. unfold fwd_label, fwd_bwd_label. simpl. by intros [=]. Qed.

(** Evaluate the left-hand side of an equation and give the result to the
    right-hand side. *)
Ltac evaluate :=
  lazymatch goal with
  | |- ?l = _ =>
      let v := eval vm_compute in l in
      transitivity v; [vm_cast_no_check (eq_refl v) | reflexivity]
  end.




(** C5. At a sweep point whose calls succeed, the two entries stored for
    the point are [forward / t1] under the forward label and
    [3 * forward / t2] under the forward and backward label, with the same
    analytic cost [forward] of the configuration and the two measured
    times. *)
Theorem fwd_bwd_cost_is_three_forward {T : Torch}
    (layer : Obj) (h : Z) (cross_attention : bool) (s b : Z)
    (results : gmap string (gmap string float))
    (f : float) (X0 X : Obj) (d : gmap string Obj) (t1 t2 : float)
    (w w1 w2 w3 w4 : World) :
  forward cross_attention b s h = Ok f →
  randn [b; s; h] float32 w = (Ok X0, w1) →
  half X0 w1 = (Ok X, w2) →
  var_dict (layer_benchmark_locals layer X) [layer; X] = Ok d →
  walltime (fwd_stmt (encoder_state cross_attention)) d 5 w2 = (Ok t1, w3) →
  PrimFloat.eqb t1 0 = false →
  walltime (fwd_bwd_stmt (encoder_state cross_attention)) d 5 w3 = (Ok t2, w4) →
  PrimFloat.eqb t2 0 = false →
  ∃ results',
    layer_benchmark_body layer h cross_attention (encoder_state cross_attention)
      s b results w = (Ok results', w4) ∧
    cell results' (batch_label b) (fwd_label s) = Some (f / t1)%float ∧
    cell results' (batch_label b) (fwd_bwd_label s) = Some (3 * f / t2)%float.
Proof.
  intros Hf HX0 HX Hd Ht1 Hnz1 Ht2 Hnz2. eexists. split.
  - by eapply layer_benchmark_body_Ok.
  - rewrite !cell_setitem2. split.
    + rewrite decide_False; [by rewrite decide_True|].
      intros Heq. apply (fwd_label_ne_fwd_bwd_label s s). symmetry.
      exact (f_equal snd Heq).
    + by rewrite decide_True.
Qed.

(** The first point of the BERT sweep, timed at 0.5 s and 2 s. *)
Lemma fwd_bwd_cost_is_three_forward_witness :
  let w := Sim.mkWorld 1 [Ok [0.5%float]; Ok [2%float]] in
  ∃ f results' w',
    forward false 2 128 1024 = Ok f ∧
    layer_benchmark_body (T := Sim.torch) Sim.bert_layer 1024 false
      (encoder_state false) 128 2 ∅ w = (Ok results', w') ∧
    cell results' "batch=2" "fwd seq_len=128" = Some (f / 0.5)%float ∧
    cell results' "batch=2" "fwd+bwd seq_len=128" = Some (3 * f / 2)%float.
Proof.
  intros w.
  assert (∃ f, forward false 2 128 1024 = Ok f) as [f Hf]
    by (eexists; evaluate).
  exists f.
  pose (X0 := mkObj 1 (Tensor [2; 128; 1024] float32)).
  pose (X := mkObj 2 (Tensor [2; 128; 1024] float16)).
  pose (script := [Ok [0.5%float]; Ok [2%float]]).
  destruct (fwd_bwd_cost_is_three_forward (T := Sim.torch)
              Sim.bert_layer 1024 false 128 2 ∅ f X0 X
              {[ "layer" := Sim.bert_layer; "X" := X ]} 0.5 2
              w (Sim.mkWorld 2 script) (Sim.mkWorld 3 script)
              (Sim.mkWorld 3 [Ok [2%float]]) (Sim.mkWorld 3 []))
    as (results' & Hrun & Hcells); try reflexivity; [exact Hf|].
  by exists results', (Sim.mkWorld 3 []).
Defined.

(** C7. An exception of the timed operation goes through unchanged:
    [walltime] raises it and returns no number; the sweep point at which
    it happens, in the forward or in the forward and backward timing,
    raises it; and [layer_benchmark] raises it at the first such point,
    returning no table. *)
Theorem failure_propagates {T : Torch} :
  (∀ stmt arg_dict duration e w w',
     blocked_autorange stmt arg_dict duration w = (Raise e, w') →
     walltime stmt arg_dict duration w = (Raise e, w')) ∧
  (∀ layer h cross_attention s b results f X0 X d w w1 w2,
     forward cross_attention b s h = Ok f →
     randn [b; s; h] float32 w = (Ok X0, w1) →
     half X0 w1 = (Ok X, w2) →
     var_dict (layer_benchmark_locals layer X) [layer; X] = Ok d →
     let encoder_state := encoder_state cross_attention in
     let point :=
       layer_benchmark_body layer h cross_attention encoder_state s b results w in
     (∀ e w3,
        walltime (fwd_stmt encoder_state) d 5 w2 = (Raise e, w3) →
        point = (Raise e, w3)) ∧
     (∀ t1 e w3 w4,
        walltime (fwd_stmt encoder_state) d 5 w2 = (Ok t1, w3) →
        PrimFloat.eqb t1 0 = false →
        walltime (fwd_bwd_stmt encoder_state) d 5 w3 = (Raise e, w4) →
        point = (Raise e, w4))) ∧
  (∀ layer hidden_size seq_lens batch_sizes cross_attention
     before s b after results e w w1 w2,
     list_prod seq_lens batch_sizes = before ++ (s, b) :: after →
     for_ before
       (λ p, layer_benchmark_body layer hidden_size cross_attention
               (encoder_state cross_attention) p.1 p.2) ∅ w = (Ok results, w1) →
     layer_benchmark_body layer hidden_size cross_attention
       (encoder_state cross_attention) s b results w1 = (Raise e, w2) →
     layer_benchmark layer hidden_size seq_lens batch_sizes cross_attention w =
       (Raise e, w2)).
Proof.
  split_and!.
  - intros *. apply walltime_Raise.
  - intros * Hf HX0 HX Hd. split.
    + intros * Ht1. by eapply layer_benchmark_body_fwd_Raise.
    + intros * Ht1 Hnz1 Ht2. by eapply layer_benchmark_body_bwd_Raise.
  - intros * Hpoints Hbefore Hpoint.
    rewrite layer_benchmark_flat, Hpoints. by eapply for_Raise.
Qed.

(** The BERT sweep over sequence lengths 128, 512 and batches 2, 4 with a
    timer that raises in its fourth run: the second sweep point raises in
    its forward and backward timing, and so does the sweep. *)
Lemma failure_propagates_witness :
  let oom := LibraryError "RuntimeError" in
  let w := Sim.mkWorld 1 [Ok [1%float]; Ok [1%float]; Ok [1%float]; Raise oom] in
  layer_benchmark (T := Sim.torch) Sim.bert_layer 1024 [128; 512] [2; 4] false w =
    (Raise oom, Sim.mkWorld 5 []).
Proof.
  intros oom w.
  destruct (failure_propagates (T := Sim.torch)) as (_ & _ & Hsweep).
  eapply (Hsweep Sim.bert_layer 1024 [128; 512] [2; 4] false
            [(128, 2)] 128 4 [(512, 2); (512, 4)]).
  - reflexivity.
  - evaluate.
  - by vm_compute.
Defined.

(** ** Sweeps in a world where the library does not fail *)

Section well_behaved.
Context {T : Torch} (P : World → Prop).

(** [P] is a set of worlds that the library calls do not leave, and in
    which they return, the timer with a non-zero median. *)
Hypothesis randn_Ok : ∀ shape dtype w, P w →
  ∃ X w', randn shape dtype w = (Ok X, w') ∧ P w'.
Hypothesis half_Ok : ∀ X w, P w →
  ∃ X' w', half X w = (Ok X', w') ∧ P w'.
Hypothesis timer_Ok : ∀ stmt globals_ min_run_time w, P w →
  ∃ measurement w',
    blocked_autorange stmt globals_ min_run_time w = (Ok measurement, w') ∧
    PrimFloat.eqb (median measurement) 0 = false ∧ P w'.

Lemma walltime_total stmt arg_dict duration w :
  P w →
  ∃ t w', walltime stmt arg_dict duration w = (Ok t, w') ∧
          PrimFloat.eqb t 0 = false ∧ P w'.
Proof.
  intros (m & w' & Hm & Hnz & HP)%(timer_Ok stmt arg_dict duration).
  exists (median m), w'. split; [by apply walltime_Ok | done].
Qed.

Lemma layer_benchmark_body_total layer h cross enc s b results f w :
  P w →
  forward cross b s h = Ok f →
  ∃ v1 v2 w',
    layer_benchmark_body layer h cross enc s b results w =
      (Ok (setitem2 (batch_label b) (fwd_bwd_label s) v2
             (setitem2 (batch_label b) (fwd_label s) v1 results)), w') ∧
    P w'.
Proof.
  intros (X0 & w1 & HX0 & HP1)%(randn_Ok [b; s; h] float32) Hf.
  destruct (half_Ok X0 w1 HP1) as (X & w2 & HX & HP2).
  destruct (layer_benchmark_locals_bound layer X) as [d Hd].
  destruct (walltime_total (fwd_stmt enc) d 5 w2 HP2)
    as (t1 & w3 & Ht1 & Hnz1 & HP3).
  destruct (walltime_total (fwd_bwd_stmt enc) d 5 w3 HP3)
    as (t2 & w4 & Ht2 & Hnz2 & HP4).
  eexists _, _, w4. split; [|done].
  by eapply layer_benchmark_body_Ok.
Qed.

(** The entries of the table after a run of sweep points: the ones it
    had, and the two of every point. *)
Lemma sweep_total layer h cross enc (points : list (Z * Z)) results w :
  P w →
  (∀ s b, (s, b) ∈ points → ∃ f, forward cross b s h = Ok f) →
  ∃ results' w',
    for_ points (λ p, layer_benchmark_body layer h cross enc p.1 p.2)
      results w = (Ok results', w') ∧
    P w' ∧
    ∀ col row, (col, row) ∈ cells results' ↔
      (col, row) ∈ cells results ∨
      ∃ s b, (s, b) ∈ points ∧ col = batch_label b ∧
             (row = fwd_label s ∨ row = fwd_bwd_label s).
Proof.
  revert results w.
  induction points as [|[s b] points IH]; intros results w HP Hcost.
  - exists results, w. split_and!; [done..|].
    intros col row. split; [by left|].
    intros [?|(? & ? & []%elem_of_nil & _)]. done.
  - destruct (Hcost s b) as [f Hf]; [left|].
    destruct (layer_benchmark_body_total layer h cross enc s b results f w HP Hf)
      as (v1 & v2 & w1 & Hpoint & HP1).
    destruct (IH (setitem2 (batch_label b) (fwd_bwd_label s) v2
                    (setitem2 (batch_label b) (fwd_label s) v1 results))
                w1 HP1) as (results' & w' & Hrest & HP' & Hcells).
    { intros s' b' Hin. apply Hcost. by right. }
    exists results', w'. split_and!; [|done|].
    + simpl. by run Hpoint.
    + intros col row. rewrite Hcells, !cells_setitem2.
      rewrite !elem_of_union, !elem_of_singleton.
      setoid_rewrite elem_of_cons. split.
      * intros [[Heq|[Heq|Hold]]|(s' & b' & Hin & Hlabels)].
        -- injection Heq as -> ->. right. exists s, b. auto.
        -- injection Heq as -> ->. right. exists s, b. auto.
        -- by left.
        -- right. exists s', b'. auto.
      * intros [Hold|(s' & b' & [Heq|Hin] & Hcol & Hrow)]; [by auto| |].
        -- injection Heq as -> ->. subst col. destruct Hrow as [->| ->]; auto.
        -- right. exists s', b'. auto.
Qed.

End well_behaved.

(** C9. In a world where the library calls return (the timer with a
    non-zero median), sweeping [layer_benchmark] over the sequence lengths
    128, 512 and the batch sizes 2, 4 returns a table with eight entries
    under the labels the f-strings build: the four forward entries and the
    four forward and backward entries, the code computing both at every
    point. *)
Theorem layer_benchmark_table_shape {T : Torch} (P : World → Prop)
    (layer : Obj) (hidden_size : Z) (cross_attention : bool) (w : World) :
  (∀ shape dtype w, P w → ∃ X w', randn shape dtype w = (Ok X, w') ∧ P w') →
  (∀ X w, P w → ∃ X' w', half X w = (Ok X', w') ∧ P w') →
  (∀ stmt globals_ min_run_time w, P w →
     ∃ measurement w',
       blocked_autorange stmt globals_ min_run_time w = (Ok measurement, w') ∧
       PrimFloat.eqb (median measurement) 0 = false ∧ P w') →
  P w →
  (∀ s b, s ∈ [128; 512] → b ∈ [2; 4] →
     ∃ f, forward cross_attention b s hidden_size = Ok f) →
  ∃ df w',
    layer_benchmark layer hidden_size [128; 512] [2; 4] cross_attention w =
      (Ok df, w') ∧
    cells df =
      {[ ("batch=2", "fwd seq_len=128"); ("batch=2", "fwd+bwd seq_len=128");
         ("batch=4", "fwd seq_len=128"); ("batch=4", "fwd+bwd seq_len=128");
         ("batch=2", "fwd seq_len=512"); ("batch=2", "fwd+bwd seq_len=512");
         ("batch=4", "fwd seq_len=512"); ("batch=4", "fwd+bwd seq_len=512") ]} ∧
    size (filter (λ k, String.prefix "fwd seq_len=" k.2 = true) (cells df)) = 4%nat ∧
    size (filter (λ k, String.prefix "fwd+bwd seq_len=" k.2 = true) (cells df)) = 4%nat ∧
    size (cells df) = 8%nat.
Proof.
  intros Hrandn Hhalf Htimer HP Hcost.
  destruct (sweep_total P Hrandn Hhalf Htimer layer hidden_size cross_attention
              (encoder_state cross_attention) (list_prod [128; 512] [2; 4]) ∅ w HP)
    as (df & w' & Hrun & _ & Hcells).
  { intros s b [Hs Hb]%list_elem_of_In%in_prod_iff.
    apply Hcost; by apply list_elem_of_In. }
  exists df, w'. rewrite layer_benchmark_flat. split; [done|].
  assert (cells df =
      {[ ("batch=2", "fwd seq_len=128"); ("batch=2", "fwd+bwd seq_len=128");
         ("batch=4", "fwd seq_len=128"); ("batch=4", "fwd+bwd seq_len=128");
         ("batch=2", "fwd seq_len=512"); ("batch=2", "fwd+bwd seq_len=512");
         ("batch=4", "fwd seq_len=512"); ("batch=4", "fwd+bwd seq_len=512") ]})
    as ->.
  { apply set_eq. intros [col row]. rewrite Hcells, cells_empty. simpl list_prod.
    split.
    - intros [[]%not_elem_of_empty|(s & b & Hin & -> & Hrow)].
      repeat (apply elem_of_cons in Hin as [[= -> ->]|Hin];
              [destruct Hrow as [->| ->]; by vm_compute|]).
      by apply elem_of_nil in Hin.
    - intros Hin. right. rewrite !elem_of_union, !elem_of_singleton in Hin.
      repeat match goal with H : _ ∨ _ |- _ => destruct H as [H|H] end;
        injection Hin as -> ->;
        [ exists 128, 2 | exists 128, 2 | exists 128, 4 | exists 128, 4
        | exists 512, 2 | exists 512, 2 | exists 512, 4 | exists 512, 4 ];
        (split; [apply (bool_decide_unpack _); by vm_compute|]); split; auto. }
  split; [reflexivity|]. by vm_compute.
Qed.

(** The scripted library with an empty script never fails and times every
    statement at one second. *)
Lemma layer_benchmark_table_shape_witness :
  ∃ df w',
    layer_benchmark (T := Sim.torch) Sim.bert_layer 1024 [128; 512] [2; 4] false
      Sim.quiet = (Ok df, w') ∧
    cells df =
      {[ ("batch=2", "fwd seq_len=128"); ("batch=2", "fwd+bwd seq_len=128");
         ("batch=4", "fwd seq_len=128"); ("batch=4", "fwd+bwd seq_len=128");
         ("batch=2", "fwd seq_len=512"); ("batch=2", "fwd+bwd seq_len=512");
         ("batch=4", "fwd seq_len=512"); ("batch=4", "fwd+bwd seq_len=512") ]} ∧
    size (filter (λ k, String.prefix "fwd seq_len=" k.2 = true) (cells df)) = 4%nat ∧
    size (filter (λ k, String.prefix "fwd+bwd seq_len=" k.2 = true) (cells df)) = 4%nat ∧
    size (cells df) = 8%nat.
Proof.
  apply (layer_benchmark_table_shape (T := Sim.torch)
           (λ w, Sim.script w = []) Sim.bert_layer 1024 false Sim.quiet).
  - intros shape dtype w Hw. by eexists _, _.
  - intros X w Hw. by eexists _, _.
  - intros stmt globals_ min_run_time w Hw. exists [1%float], w.
    simpl. unfold Sim.run_timer. by rewrite Hw.
  - reflexivity.
  - intros s b Hs Hb.
    repeat (apply elem_of_cons in Hs as [->|Hs]);
      try (by apply elem_of_nil in Hs);
      repeat (apply elem_of_cons in Hb as [->|Hb]);
      try (by apply elem_of_nil in Hb); eexists; evaluate.
Defined.

(** ** The module-level sweeps *)

Section cell_facts.
Context {T : Torch}.

(** One point of the matrix-multiplication sweep whose calls succeed. *)
Lemma matmul_body_Ok n dtype globals_ matmul_tflops a b d t v w w1 w2 w3 :
  randn [n; n] dtype w = (Ok a, w1) →
  randn [n; n] dtype w1 = (Ok b, w2) →
  var_dict (setvar "b" b (setvar "a" a globals_)) [a; b] = Ok d →
  walltime "a @ b" d 5 w2 = (Ok t, w3) →
  rate (matmul_flop n) t 1e12 = Ok v →
  matmul_body n dtype (globals_, matmul_tflops) w =
    (Ok (delvar "b" (delvar "a"
           (setplain "t" (setvar "b" b (setvar "a" a globals_)))),
         setitem2 ("n=" +:+ pretty n) dtype v matmul_tflops), w3).
Proof.
  intros Ha Hb Hd Ht Hv. unfold matmul_body.
  run Ha. run Hb. run Hd. run Ht. by run Hv.
Qed.

(** One point of the elementwise sweep whose calls succeed. *)
Lemma vector_body_Ok n globals_ vector a d t v1 v2 w w1 w2 :
  randn [n] float32 w = (Ok a, w1) →
  var_dict (setvar "a" a globals_) [a] = Ok d →
  walltime "a * 1.2" d 5 w1 = (Ok t, w2) →
  rate n t 1e12 = Ok v1 →
  rate (vector_bytes n) t 1e9 = Ok v2 →
  vector_body n (globals_, vector) w =
    (Ok (setplain "t" (setvar "a" a globals_),
         setitem2 n "GB/s" v2 (setitem2 n "TFLOPS" v1 vector)), w2).
Proof.
  intros Ha Hd Ht Hv1 Hv2. unfold vector_body.
  run Ha. run Hd. run Ht. run Hv1. by run Hv2.
Qed.

End cell_facts.

(** C2. The matrix-multiplication entry of size [n] is
    [2*n*n*n / t / 1e12], the count [2*a*b*c] at [a = b = c = n] over the
    measured time, in units of [1e12]; the count is 4,194,304 at 128 and
    268,435,456 at 512 (and 17,179,869,184 at 2048). *)
Theorem matmul_flop_count {T : Torch}
    (n : Z) (dtype : Dtype) (globals_ : Frame)
    (matmul_tflops : gmap string (gmap Dtype float))
    (a b : Obj) (d : gmap string Obj) (t v : float) (w w1 w2 w3 : World) :
  randn [n; n] dtype w = (Ok a, w1) →
  randn [n; n] dtype w1 = (Ok b, w2) →
  var_dict (setvar "b" b (setvar "a" a globals_)) [a; b] = Ok d →
  walltime "a @ b" d 5 w2 = (Ok t, w3) →
  rate (2 * n * n * n) t 1e12 = Ok v →
  (∃ globals',
     matmul_body n dtype (globals_, matmul_tflops) w =
       (Ok (globals', setitem2 ("n=" +:+ pretty n) dtype v matmul_tflops), w3)) ∧
  matmul_flop n = 2 * n * n * n ∧
  matmul_flop 128 = 4194304 ∧
  matmul_flop 512 = 268435456 ∧
  matmul_flop 2048 = 17179869184.
Proof.
  intros Ha Hb Hd Ht Hv.
  assert (matmul_flop n = 2 * n * n * n) as Hflop by (unfold matmul_flop; lia).
  split_and!; [|done..].
  eexists. eapply matmul_body_Ok; [done..|]. by rewrite Hflop.
Qed.

(** The first point of the sweep in the notebook, timed at half a
    second. *)
Lemma matmul_flop_count_witness :
  let w := Sim.mkWorld 1 [Ok [0.5%float]] in
  ∃ v globals' w',
    rate 4194304 0.5 1e12 = Ok v ∧
    matmul_body (T := Sim.torch) 128 float32 ([], ∅) w =
      (Ok (globals', {[ "n=128" := {[ float32 := v ]} ]}), w').
Proof.
  intros w.
  assert (∃ v, rate 4194304 0.5 1e12 = Ok v) as [v Hv] by (eexists; evaluate).
  pose (a := mkObj 1 (Tensor [128; 128] float32)).
  pose (b := mkObj 2 (Tensor [128; 128] float32)).
  destruct (matmul_flop_count (T := Sim.torch) 128 float32 [] ∅ a b
              {[ "a" := a; "b" := b ]} 0.5 v
              w (Sim.mkWorld 2 [Ok [0.5%float]]) (Sim.mkWorld 3 [Ok [0.5%float]])
              (Sim.mkWorld 3 []))
    as ((globals' & Hrun) & _); try reflexivity; [exact Hv|].
  by exists v, globals', (Sim.mkWorld 3 []).
Defined.

(** Two [float]s that compare unequal are different. *)
Lemma float_neq (x y : float) : PrimFloat.eqb x y = false → PrimFloat.eqb x x = true → x ≠ y.
Proof. intros Hxy Hxx ->. congruence. Qed.

Lemma Ok_float_neq (x y : float) :
  PrimFloat.eqb x y = false → PrimFloat.eqb x x = true → Ok x ≠ Ok y.
Proof. intros Hxy Hxx [= Heq]. by apply (float_neq x y). Qed.

(** C6, as stated, fails: run in a world that times every statement at one
    second, the cell stores under ['GB/s'] for 65536 elements neither
    [k*n / t] nor [k*n / t / 1e9] with [k] the four bytes of a [float32]
    element. *)
Lemma vector_bandwidth_not_element_size :
  ∃ globals' vector w' v,
    vector_cell (T := Sim.torch) [] Sim.quiet = (Ok (globals', vector), w') ∧
    walltime (T := Sim.torch) "a * 1.2" ∅ 5 Sim.quiet = (Ok 1%float, Sim.quiet) ∧
    cell vector 65536 "GB/s" = Some v ∧
    Ok v = rate (8 * 65536) 1 1e9 ∧
    Ok v ≠ int_truediv (element_size float32 * 65536) 1 ∧
    Ok v ≠ rate (element_size float32 * 65536) 1 1e9.
Proof.
  eexists _, _, _, _. split; [evaluate|]. split; [reflexivity|].
  split; [evaluate|]. split; [reflexivity|]. split; by apply Ok_float_neq.
Qed.

(** C6, amended. The ['GB/s'] entry for a vector of [n] [float32] elements
    is [8*n / t / 1e9]: eight bytes an element, the four read and the four
    written, over the measured time, in units of [1e9]. *)
Theorem vector_bandwidth {T : Torch}
    (n : Z) (globals_ : Frame) (vector : gmap Z (gmap string float))
    (a : Obj) (d : gmap string Obj) (t v1 v2 : float) (w w1 w2 : World) :
  randn [n] float32 w = (Ok a, w1) →
  var_dict (setvar "a" a globals_) [a] = Ok d →
  walltime "a * 1.2" d 5 w1 = (Ok t, w2) →
  rate n t 1e12 = Ok v1 →
  rate (2 * element_size float32 * n) t 1e9 = Ok v2 →
  ∃ globals' vector',
    vector_body n (globals_, vector) w = (Ok (globals', vector'), w2) ∧
    cell vector' n "GB/s" = Some v2 ∧
    rate (2 * element_size float32 * n) t 1e9 = rate (8 * n) t 1e9.
Proof.
  intros Ha Hd Ht Hv1 Hv2.
  replace (2 * element_size float32 * n) with (vector_bytes n) in *
    by (unfold vector_bytes, element_size; lia).
  eexists _, _. split; [by eapply vector_body_Ok|].
  split; [|done]. rewrite cell_setitem2. by rewrite decide_True.
Qed.

(** The first vector of the sweep in the notebook, timed at a quarter of a
    second. *)
Lemma vector_bandwidth_witness :
  let w := Sim.mkWorld 1 [Ok [0.25%float]] in
  ∃ v2 globals' vector' w',
    rate (8 * 65536) 0.25 1e9 = Ok v2 ∧
    vector_body (T := Sim.torch) 65536 ([], ∅) w = (Ok (globals', vector'), w') ∧
    cell vector' 65536 "GB/s" = Some v2.
Proof.
  intros w.
  assert (∃ v1, rate 65536 0.25 1e12 = Ok v1) as [v1 Hv1] by (eexists; evaluate).
  assert (∃ v2, rate (8 * 65536) 0.25 1e9 = Ok v2) as [v2 Hv2]
    by (eexists; evaluate).
  pose (a := mkObj 1 (Tensor [65536] float32)).
  destruct (vector_bandwidth (T := Sim.torch) 65536 [] ∅ a {[ "a" := a ]}
              0.25 v1 v2 w (Sim.mkWorld 2 [Ok [0.25%float]]) (Sim.mkWorld 2 []))
    as (globals' & vector' & Hrun & Hcell & _); try reflexivity; [done..|].
  by exists v2, globals', vector', (Sim.mkWorld 2 []).
Defined.

(** ** The layer cost model *)

(** C3. The feed-forward cost of [layer_benchmark] is [16*b*s*h^2] FLOPs
    and its attention cost [4*b*h*s^2 + 8*b*s*h^2] FLOPs, each divided by
    [1e12], and the forward cost is made of these two; at [h = 1024],
    [s = 128], [b = 2] they are 4,294,967,296 and
    134,217,728 + 2,147,483,648 = 2,281,701,376 FLOPs. *)
Theorem layer_cost_model (b s h : Z) :
  ffn_flop b s h = 16 * b * s * h ^ 2 ∧
  atten_flop b s h = 4 * b * h * s ^ 2 + 8 * b * s * h ^ 2 ∧
  ffn b s h = int_truediv (16 * b * s * h ^ 2) 1e12 ∧
  atten b s h = int_truediv (4 * b * h * s ^ 2 + 8 * b * s * h ^ 2) 1e12 ∧
  ffn_flop 2 128 1024 = 4294967296 ∧
  atten_flop 2 128 1024 = 134217728 + 2147483648 ∧
  atten_flop 2 128 1024 = 2281701376 ∧
  ffn 2 128 1024 = Ok 0x1.19799812dea11p-8%float ∧
  atten 2 128 1024 = Ok 0x1.2b1131940c8b2p-9%float ∧
  ∀ cross_attention,
    forward cross_attention b s h =
      (ffn_ ← int_truediv (16 * b * s * h ^ 2) 1e12;
       atten_ ← int_truediv (4 * b * h * s ^ 2 + 8 * b * s * h ^ 2) 1e12;
       mret (ffn_ + (if cross_attention then 2 else 1) * atten_)%float).
Proof.
  assert (ffn_flop b s h = 16 * b * s * h ^ 2) as Hffn
    by (unfold ffn_flop; lia).
  assert (atten_flop b s h = 4 * b * h * s ^ 2 + 8 * b * s * h ^ 2) as Hatten
    by (unfold atten_flop; lia).
  split_and!; try done.
  - unfold ffn. by rewrite Hffn.
  - unfold atten. by rewrite Hatten.
  - intros cross_attention. unfold forward, ffn, atten. by rewrite Hffn, Hatten.
Qed.

(** C4. With [cross_attention] the forward cost is the feed-forward cost
    plus two attention terms, without it the feed-forward cost plus one;
    and that cost over the measured time is the forward entry that a sweep
    point of [layer_benchmark] stores. *)
Theorem forward_attention_terms {T : Torch}
    (layer : Obj) (h : Z) (cross_attention : bool) (s b : Z)
    (results : gmap string (gmap string float))
    (ffn_ atten_ : float) (X0 X : Obj) (d : gmap string Obj) (t1 t2 : float)
    (w w1 w2 w3 w4 : World) :
  ffn b s h = Ok ffn_ →
  atten b s h = Ok atten_ →
  randn [b; s; h] float32 w = (Ok X0, w1) →
  half X0 w1 = (Ok X, w2) →
  var_dict (layer_benchmark_locals layer X) [layer; X] = Ok d →
  walltime (fwd_stmt (encoder_state cross_attention)) d 5 w2 = (Ok t1, w3) →
  PrimFloat.eqb t1 0 = false →
  walltime (fwd_bwd_stmt (encoder_state cross_attention)) d 5 w3 = (Ok t2, w4) →
  PrimFloat.eqb t2 0 = false →
  forward true b s h = Ok (ffn_ + 2 * atten_)%float ∧
  forward false b s h = Ok (ffn_ + 1 * atten_)%float ∧
  ∃ results',
    layer_benchmark_body layer h cross_attention (encoder_state cross_attention)
      s b results w = (Ok results', w4) ∧
    cell results' (batch_label b) (fwd_label s) =
      Some ((ffn_ + (if cross_attention then 2 else 1) * atten_) / t1)%float.
Proof.
  intros Hffn Hatten HX0 HX Hd Ht1 Hnz1 Ht2 Hnz2.
  assert (Hforward : ∀ cross, forward cross b s h =
            Ok (ffn_ + (if cross then 2 else 1) * atten_)%float).
  { intros cross. unfold forward. by rewrite Hffn, Hatten. }
  split; [apply (Hforward true)|]. split; [apply (Hforward false)|].
  eexists. split.
  - eapply layer_benchmark_body_Ok; [apply Hforward|done..].
  - rewrite !cell_setitem2. rewrite decide_False; [by rewrite decide_True|].
    intros Heq. apply (fwd_label_ne_fwd_bwd_label s s). symmetry.
    exact (f_equal snd Heq).
Qed.

(** A decoder layer at the first point of the T5 sweep, timed at half a
    second and at two seconds. *)
Lemma forward_attention_terms_witness :
  let ffn_ := 0x1.19799812dea11p-6%float in
  let atten_ := 0x1.5fd7fe1796495p-7%float in
  let w := Sim.mkWorld 1 [Ok [0.5%float]; Ok [2%float]] in
  ffn 2 512 1024 = Ok ffn_ ∧
  atten 2 512 1024 = Ok atten_ ∧
  forward true 2 512 1024 = Ok (ffn_ + 2 * atten_)%float ∧
  forward false 2 512 1024 = Ok (ffn_ + 1 * atten_)%float ∧
  ∃ results' w',
    layer_benchmark_body (T := Sim.torch) (mkObj 0 (Module "T5Block")) 1024 true
      (encoder_state true) 512 2 ∅ w = (Ok results', w') ∧
    cell results' "batch=2" "fwd seq_len=512" =
      Some ((ffn_ + 2 * atten_) / 0.5)%float.
Proof.
  intros ffn_ atten_ w.
  pose (X0 := mkObj 1 (Tensor [2; 512; 1024] float32)).
  pose (X := mkObj 2 (Tensor [2; 512; 1024] float16)).
  pose (script := [Ok [0.5%float]; Ok [2%float]]).
  destruct (forward_attention_terms (T := Sim.torch)
              (mkObj 0 (Module "T5Block")) 1024 true 512 2 ∅ ffn_ atten_ X0 X
              {[ "layer" := mkObj 0 (Module "T5Block"); "X" := X ]} 0.5 2
              w (Sim.mkWorld 2 script) (Sim.mkWorld 3 script)
              (Sim.mkWorld 3 [Ok [2%float]]) (Sim.mkWorld 3 []))
    as (Htrue & Hfalse & results' & Hrun & Hcell); try reflexivity.
  split_and!; [reflexivity | reflexivity | exact Htrue | exact Hfalse |].
  by exists results', (Sim.mkWorld 3 []).
Defined.

(** ** Worked cases *)

(** Of two names bound to one object, the first of the frame is taken. *)
Example var_dict_first_alias :
  let x := mkObj 1 (Tensor [4] float32) in
  var_dict [("u", x); ("v", x)] [x] = Ok {[ "u" := x ]}.
Proof. reflexivity. Qed.

(** The same tensor passed twice is bound once. *)
Example var_dict_repeated_argument :
  let x := mkObj 1 (Tensor [4] float32) in
  var_dict [("u", x)] [x; x] = Ok {[ "u" := x ]}.
Proof. reflexivity. Qed.

Example float_of_int_exact : float_of_int 4294967296 = Ok 4294967296%float.
Proof. reflexivity. Qed.

Example float_of_int_ties_to_even :
  float_of_int (2 ^ 53 + 1) = Ok 9007199254740992%float.
Proof. reflexivity. Qed.

Example float_of_int_overflow : float_of_int (2 ^ 1024) = Raise OverflowError.
Proof. reflexivity. Qed.

Example truediv_zero : truediv 1 0 = Raise ZeroDivisionError.
Proof. reflexivity. Qed.

Example fwd_stmt_self_attention : fwd_stmt (encoder_state false) = "layer(X, )".
Proof. reflexivity. Qed.

Example fwd_bwd_stmt_cross_attention :
  fwd_bwd_stmt (encoder_state true) =
    "layer(X, encoder_hidden_states=X)[0].sum().backward()".
Proof. reflexivity. Qed.

(** The matrix-multiplication cell in a world that times every statement at
    one second: six entries, and [a], [b] deleted at the end. *)
Example matmul_cell_quiet :
  ∃ matmul_tflops w',
    matmul_cell (T := Sim.torch) [] Sim.quiet = (Ok ([], matmul_tflops), w') ∧
    cells matmul_tflops =
      {[ ("n=128", float32); ("n=128", float16); ("n=512", float32);
         ("n=512", float16); ("n=2048", float32); ("n=2048", float16) ]} ∧
    (v ← rate (matmul_flop 2048) 1 1e12; mret (Some v)) =
      Ok (cell matmul_tflops "n=2048" float16).
Proof.
  eexists _, _. split; [evaluate|].
  split; vm_compute; reflexivity.
Qed.

(** A timer that measures a zero median makes the sweep raise
    [ZeroDivisionError]. *)
Example layer_benchmark_zero_median :
  layer_benchmark (T := Sim.torch) Sim.bert_layer 1024 [128] [2] false
    (Sim.mkWorld 1 [Ok [0%float]]) = (Raise ZeroDivisionError, Sim.mkWorld 3 []).
Proof. by vm_compute. Qed.

(** * Further properties of the code *)

(** ** [var_dict]: which name is bound *)

(** Every pair the generator yields is the first local of the frame that is
    the argument's object. *)
Lemma pairs_of_head (locals : Frame) (args : list Obj) (items : Frame) :
  pairs_of locals args = Ok items →
  Forall2 (λ arg item, head (matching locals arg) = Some item) args items.
Proof.
  revert items. induction args as [|arg args IH]; intros items; simpl.
  - intros [= <-]. constructor.
  - intros (item & Hitem & (items' & Hitems & [= <-])%result_bind_Ok)%result_bind_Ok.
    constructor; [|by apply IH].
    destruct (matching locals arg); [done|]. by injection Hitem as ->.
Qed.

Lemma head_matching (locals : Frame) (arg : Obj) (item : string * Obj) :
  head (matching locals arg) = Some item → item ∈ locals ∧ py_is item.2 arg.
Proof.
  intros Hhead. apply elem_of_matching.
  destruct (matching locals arg); [done|]. injection Hhead as ->. left.
Qed.

Lemma var_dict_Raise (locals : Frame) (args : list Obj) (e : exn) :
  var_dict locals args = Raise e → e = IndexError.
Proof.
  unfold var_dict. destruct (pairs_of locals args) eqn:Hitems; [done|].
  intros [= <-]. by eapply pairs_of_Raise.
Qed.

Lemma var_dict_lookup_first
    (locals : Frame) (args : list Obj) (d : gmap string Obj) (name : string) (val : Obj) :
  NoDup locals.*1 →
  var_dict locals args = Ok d →
  d !! name = Some val ↔
    ∃ arg, arg ∈ args ∧ head (matching locals arg) = Some (name, val).
Proof.
  intros Hnodup (items & Hitems & [= <-])%result_bind_Ok.
  apply pairs_of_head in Hitems. split.
  - intros [i Hi]%py_dict_lookup%list_elem_of_lookup.
    destruct (Forall2_lookup_r _ _ _ _ _ Hitems Hi) as (arg & Harg & Hhead).
    exists arg. split; [by eapply list_elem_of_lookup_2 | done].
  - intros (arg & [i Hi]%list_elem_of_lookup & Hhead).
    destruct (Forall2_lookup_l _ _ _ _ _ Hitems Hi) as (item & Hitem & Hhead').
    assert (item = (name, val)) as -> by congruence.
    destruct (py_dict_is_Some items name) as [val' Hval'].
    { apply list_elem_of_fmap. exists (name, val). split; [done|].
      by eapply list_elem_of_lookup_2. }
    rewrite Hval'. f_equal.
    apply py_dict_lookup, list_elem_of_lookup in Hval' as [j Hj].
    destruct (Forall2_lookup_r _ _ _ _ _ Hitems Hj) as (arg' & _ & Hhead'').
    apply head_matching in Hhead as [Hin _], Hhead'' as [Hin' _].
    by eapply frame_lookup_unique.
Qed.

(** X1. The mapping binds exactly the first matches: a name is bound to a
    value if and only if that pair is the first local of the frame, in frame
    order, that is the object of some argument. *)
Theorem var_dict_binds_first_match
    (locals : Frame) (args : list Obj) (d : gmap string Obj) (name : string) (val : Obj) :
  NoDup locals.*1 →
  var_dict locals args = Ok d →
  d !! name = Some val ↔
    ∃ arg, arg ∈ args ∧ head (matching locals arg) = Some (name, val).
Proof. apply var_dict_lookup_first. Qed.

(** [h = hidden_size] binds two names to one object; passing it binds the
    earlier name only. *)
Lemma var_dict_binds_first_match_witness :
  let x := mkObj 1 (Tensor [4] float32) in
  let y := mkObj 2 (Tensor [4] float32) in
  let locals := [("hidden", x); ("other", y); ("h", x)] in
  ∃ d, var_dict locals [x] = Ok d ∧
       d !! "hidden" = Some x ∧ d !! "h" = None.
Proof.
  intros x y locals.
  assert (Hnodup : NoDup locals.*1) by (apply (bool_decide_unpack _); reflexivity).
  assert (Hrun : var_dict locals [x] = Ok {[ "hidden" := x ]}) by reflexivity.
  eexists. split; [exact Hrun|]. split.
  - apply (var_dict_binds_first_match locals [x] _ "hidden" x Hnodup Hrun).
    exists x. split; [left | reflexivity].
  - reflexivity.
Defined.

Lemma var_dict_Ok_inv (locals : Frame) (args : list Obj) (d : gmap string Obj) :
  var_dict locals args = Ok d →
  ∀ arg, arg ∈ args → ∃ item, item ∈ locals ∧ py_is item.2 arg.
Proof.
  intros (items & Hitems & _)%result_bind_Ok arg [i Hi]%list_elem_of_lookup.
  apply pairs_of_Ok in Hitems.
  destruct (Forall2_lookup_l _ _ _ _ _ Hitems Hi) as (item & _ & ? & ?).
  by exists item.
Qed.

(** X2. [var_dict] returns a mapping exactly when every argument is the
    object of some local of the frame; otherwise it raises, and the only
    exception it raises is [IndexError]. *)
Theorem var_dict_Ok_iff (locals : Frame) (args : list Obj) :
  ((∃ d, var_dict locals args = Ok d) ↔
     ∀ arg, arg ∈ args → ∃ item, item ∈ locals ∧ py_is item.2 arg) ∧
  ((∃ e, var_dict locals args = Raise e) ↔
     var_dict locals args = Raise IndexError).
Proof.
  split; split.
  - intros [d Hd]. by eapply var_dict_Ok_inv.
  - apply var_dict_bound.
  - intros [e He]. by rewrite He, (var_dict_Raise _ _ _ He).
  - by exists IndexError.
Qed.

Lemma py_dict_acc_size {V} (pairs : list (string * V)) (d : gmap string V) :
  (size (fold_left (λ d item, <[item.1 := item.2]> d) pairs d) ≤ size d + length pairs)%nat.
Proof.
  revert d. induction pairs as [|[k v] pairs IH]; intros d; simpl; [lia|].
  etrans; [apply IH|]. simpl.
  destruct (d !! k) as [v'|] eqn:Hk.
  - rewrite map_size_insert_Some by done. lia.
  - rewrite map_size_insert_None by done. lia.
Qed.

(** X3. The mapping has at most one binding for each argument: fewer when
    arguments repeat or share a first name in the frame, never more. *)
Theorem var_dict_size (locals : Frame) (args : list Obj) (d : gmap string Obj) :
  var_dict locals args = Ok d → (size d ≤ length args)%nat.
Proof.
  intros (items & Hitems & [= <-])%result_bind_Ok.
  apply pairs_of_Ok, Forall2_length in Hitems. rewrite Hitems.
  unfold py_dict. etrans; [apply py_dict_acc_size|].
  by rewrite map_size_empty.
Qed.

(** The same tensor under two names, passed three times: one binding. *)
Lemma var_dict_size_witness :
  let x := mkObj 1 (Tensor [4] float32) in
  ∃ d, var_dict [("u", x); ("v", x)] [x; x; x] = Ok d ∧
       (size d ≤ 3)%nat ∧ size d = 1%nat.
Proof.
  intros x. exists {[ "u" := x ]}.
  assert (Hrun : var_dict [("u", x); ("v", x)] [x; x; x] = Ok {[ "u" := x ]})
    by reflexivity.
  split; [exact Hrun|]. split; [|reflexivity].
  apply (var_dict_size _ _ _ Hrun).
Defined.

(** X4. The mapping depends on the set of arguments only: their order and
    their repetitions do not change it, nor whether [var_dict] raises. *)
Theorem var_dict_args_as_set (locals : Frame) (args args' : list Obj) :
  NoDup locals.*1 →
  (∀ arg, arg ∈ args ↔ arg ∈ args') →
  var_dict locals args = var_dict locals args'.
Proof.
  intros Hnodup Hsame.
  destruct (var_dict locals args) as [d|e] eqn:Hd.
  - destruct (var_dict_bound locals args') as [d' Hd'].
    { intros arg Harg%Hsame. by eapply var_dict_Ok_inv. }
    rewrite Hd'. f_equal. apply map_eq. intros name.
    apply option_eq. intros val.
    rewrite (var_dict_lookup_first locals args d name val Hnodup Hd).
    rewrite (var_dict_lookup_first locals args' d' name val Hnodup Hd').
    by setoid_rewrite Hsame.
  - rewrite (var_dict_Raise _ _ _ Hd) in *.
    destruct (var_dict locals args') as [d'|e'] eqn:Hd'.
    + destruct (var_dict_bound locals args) as [d Hd'']; [|congruence].
      intros arg Harg%Hsame. by eapply var_dict_Ok_inv.
    + by rewrite (var_dict_Raise _ _ _ Hd').
Qed.

Lemma var_dict_args_as_set_witness :
  let a := mkObj 1 (Tensor [2; 2] float32) in
  let b := mkObj 2 (Tensor [2; 2] float32) in
  let locals := [("a", a); ("b", b)] in
  var_dict locals [a; b] = var_dict locals [b; a; b] ∧
  var_dict locals [a; b] = Ok {[ "a" := a; "b" := b ]}.
Proof.
  intros a b locals. split; [|reflexivity].
  apply (var_dict_args_as_set locals [a; b] [b; a; b]).
  - apply (bool_decide_unpack _). reflexivity.
  - intros arg. rewrite !elem_of_cons, !elem_of_nil. tauto.
Defined.

Lemma matching_filter (Q : string * Obj → Prop) `{∀ item, Decision (Q item)}
    (locals : Frame) (arg : Obj) :
  (∀ item, item ∈ locals → py_is item.2 arg → Q item) →
  matching (filter Q locals) arg = matching locals arg.
Proof.
  unfold matching. induction locals as [|item locals IH]; intros HQ; [done|].
  rewrite (filter_cons Q). rewrite (filter_cons (λ item, py_is item.2 arg) item locals).
  assert (Hrest : ∀ item', item' ∈ locals → py_is item'.2 arg → Q item')
    by (intros; apply HQ; [by right | done]).
  destruct (decide (Q item)) as [Hq|Hq].
  - rewrite filter_cons. destruct (decide (py_is item.2 arg)); by rewrite IH.
  - rewrite decide_False; [by apply IH|].
    intros His. apply Hq, HQ; [left | done].
Qed.

(** X5. Locals that are the object of no argument do not count: the frame
    can be cut down to any part of it that keeps every local that is the
    object of an argument, and [var_dict] gives the same. *)
Theorem var_dict_ignores_other_locals
    (Q : string * Obj → Prop) `{∀ item, Decision (Q item)}
    (locals : Frame) (args : list Obj) :
  (∀ item arg, item ∈ locals → arg ∈ args → py_is item.2 arg → Q item) →
  var_dict (filter Q locals) args = var_dict locals args.
Proof.
  intros HQ. unfold var_dict. f_equal.
  induction args as [|arg args IH]; [done|]. simpl.
  rewrite matching_filter by (intros; eapply HQ; [done | left | done]).
  rewrite IH; [done|]. intros item arg' ? ?. apply HQ; [done | by right].
Qed.

(** The frame of a sweep point with a third tensor in between. *)
Lemma var_dict_ignores_other_locals_witness :
  let layer := mkObj 0 (Module "BertLayer") in
  let X := mkObj 2 (Tensor [2; 128; 1024] float16) in
  let other := mkObj 1 (Tensor [2; 128; 1024] float32) in
  var_dict [("layer", layer); ("X", X)] [layer; X] =
  var_dict [("layer", layer); ("other", other); ("X", X)] [layer; X].
Proof.
  intros layer X other.
  etrans;
    [|apply (var_dict_ignores_other_locals (λ item, item.1 ≠ "other")
               [("layer", layer); ("other", other); ("X", X)] [layer; X])];
    [reflexivity|].
  intros item arg Hitem Harg His Heq.
  repeat (apply elem_of_cons in Hitem as [->|Hitem]);
    try (by apply elem_of_nil in Hitem); try discriminate Heq.
  repeat (apply elem_of_cons in Harg as [->|Harg]);
    try (by apply elem_of_nil in Harg); by vm_compute in His.
Defined.

Lemma var_dict_unaliased (locals : Frame) (bindings : Frame) :
  (∀ name arg, (name, arg) ∈ bindings →
     (name, arg) ∈ locals ∧
     ∀ item, item ∈ locals → py_is item.2 arg → item = (name, arg)) →
  var_dict locals bindings.*2 = Ok (py_dict bindings).
Proof.
  intros Hbound. unfold var_dict.
  enough (pairs_of locals bindings.*2 = Ok bindings) as Hp.
  { unfold mbind, result_bind. by rewrite Hp. }
  induction bindings as [|[name arg] bindings IH]; [done|].
  change ((item ← item0 (matching locals arg);
           items ← pairs_of locals bindings.*2;
           mret (item :: items)) = Ok ((name, arg) :: bindings)).
  rewrite IH by (intros name' arg' Hin'; apply Hbound; by right).
  destruct (Hbound name arg) as [Hin Huniq]; [left|].
  destruct (matching locals arg) as [|item rest] eqn:Hmatch.
  { assert ((name, arg) ∈ matching locals arg) as Hitem
      by (by apply elem_of_matching).
    rewrite Hmatch in Hitem. by apply elem_of_nil in Hitem. }
  assert (item = (name, arg)) as ->; [|done].
  assert (item ∈ matching locals arg) as [? ?]%elem_of_matching
    by (rewrite Hmatch; left).
  by apply Huniq.
Qed.

(** X6. Without aliases [var_dict] gives the mapping a caller would write by
    hand: when every argument is bound in the frame under one name and no
    other local is that object, [var_dict(a, b, ...)] is
    [{'a': a, 'b': b, ...}]. *)
Theorem var_dict_no_alias (locals : Frame) (bindings : Frame) :
  (∀ name arg, (name, arg) ∈ bindings →
     (name, arg) ∈ locals ∧
     ∀ item, item ∈ locals → py_is item.2 arg → item = (name, arg)) →
  var_dict locals bindings.*2 = Ok (py_dict bindings).
Proof. apply var_dict_unaliased. Qed.

Lemma var_dict_no_alias_witness :
  let a := mkObj 1 (Tensor [128; 128] float32) in
  let b := mkObj 2 (Tensor [128; 128] float32) in
  let layer := mkObj 0 (Module "BertLayer") in
  var_dict [("layer", layer); ("a", a); ("b", b)] [a; b] =
    Ok {[ "a" := a; "b" := b ]}.
Proof.
  intros a b layer.
  etrans; [apply (var_dict_no_alias [("layer", layer); ("a", a); ("b", b)]
                    [("a", a); ("b", b)])|reflexivity].
  intros name arg Hin.
  repeat (apply elem_of_cons in Hin as [[= -> ->]|Hin]);
    try (by apply elem_of_nil in Hin);
    (split; [apply (bool_decide_unpack _); reflexivity|]);
    intros item Hitem His;
    repeat (apply elem_of_cons in Hitem as [->|Hitem]);
    try (by apply elem_of_nil in Hitem); try reflexivity; by vm_compute in His.
Defined.

(** X7. At its two calls in [layer_benchmark], [var_dict(layer, X)] binds
    the names [layer] and [X] that the timed statements use, unless the
    tensor is the layer object itself, when [X] is left unbound. *)
Theorem layer_benchmark_arg_dict (layer X : Obj) :
  var_dict (layer_benchmark_locals layer X) [layer; X] =
    Ok (if decide (py_is layer X)
        then {[ "layer" := layer ]}
        else {[ "layer" := layer; "X" := X ]}).
Proof.
  unfold var_dict, layer_benchmark_locals. simpl. unfold matching.
  rewrite !filter_cons, !filter_nil. simpl.
  rewrite (decide_True (P := py_is layer layer)) by done.
  rewrite (decide_True (P := py_is X X)) by done.
  destruct (decide (py_is layer X)) as [His|Hnot].
  - rewrite (decide_True (P := py_is X layer)) by (by unfold py_is in *).
    unfold py_dict. simpl. unfold mret, result_ret.
    f_equal; by rewrite insert_insert_eq.
  - rewrite (decide_False (P := py_is X layer)) by (by unfold py_is in *).
    unfold py_dict. simpl. unfold mret, result_ret.
    f_equal; by apply insert_insert_ne.
Qed.

(** ** Reading a run backwards *)

Section inversion.
Context {T : Torch}.

Lemma bind_Ok_inv {A B} (m : M A) (f : A → M B) b w w' :
  (m ≫= f) w = (Ok b, w') → ∃ a w1, m w = (Ok a, w1) ∧ f a w1 = (Ok b, w').
Proof.
  rewrite bind_run. destruct (m w) as [[a|e] w1]; [|done]. by exists a, w1.
Qed.

Lemma bind_Raise_inv {A B} (m : M A) (f : A → M B) e w w' :
  (m ≫= f) w = (Raise e, w') →
  m w = (Raise e, w') ∨ ∃ a w1, m w = (Ok a, w1) ∧ f a w1 = (Raise e, w').
Proof.
  rewrite bind_run. destruct (m w) as [[a|e'] w1]; intros Hrun.
  - right. by exists a, w1.
  - injection Hrun as -> ->. by left.
Qed.

Lemma lift_Ok_inv {A} (r : result A) a w w' :
  lift r w = (Ok a, w') → r = Ok a ∧ w' = w.
Proof. unfold lift. by intros [= -> <-]. Qed.

Lemma lift_Raise_inv {A} (r : result A) e w w' :
  lift r w = (Raise e, w') → r = Raise e ∧ w' = w.
Proof. unfold lift. by intros [= -> <-]. Qed.

Lemma walltime_Raise_inv stmt arg_dict duration e w w' :
  walltime stmt arg_dict duration w = (Raise e, w') →
  blocked_autorange stmt arg_dict duration w = (Raise e, w') ∨
  e = ZeroDivisionError ∧
  ∃ m, blocked_autorange stmt arg_dict duration w = (Ok m, w') ∧
       PrimFloat.eqb (median m) 0 = true.
Proof.
  unfold walltime. intros [?|(m & w1 & Hm & [Hret ->]%lift_Raise_inv)]%bind_Raise_inv;
    [by left|].
  right. unfold read_median in Hret.
  destruct (PrimFloat.eqb (median m) 0) eqn:Hz; [|done].
  injection Hret as <-. split; [done|]. by exists m.
Qed.

(** A loop that returns has run its body on every element, each time from
    the state the iteration before left. *)
Lemma for_Ok_ind {A S} (Inv : list A → S → Prop) (body : A → S → M S)
    (xs : list A) (st0 : S) :
  Inv [] st0 →
  (∀ before x st st' w w',
     Inv before st → body x st w = (Ok st', w') → Inv (before ++ [x]) st') →
  ∀ st w w', for_ xs body st0 w = (Ok st, w') → Inv xs st.
Proof.
  intros Hinit Hstep.
  enough (∀ before st, Inv before st →
            ∀ st' w w', for_ xs body st w = (Ok st', w') → Inv (before ++ xs) st')
    as Hgen by (intros st w w'; apply (Hgen [] st0 Hinit)).
  induction xs as [|x xs IH]; intros before st HInv st' w w'; simpl.
  - intros [= <- _]. by rewrite app_nil_r.
  - intros (st1 & w1 & Hx & Hrest)%bind_Ok_inv.
    rewrite (cons_middle x before xs), app_assoc.
    eapply IH; [|exact Hrest]. by eapply Hstep.
Qed.

(** A loop that raises has raised in its body, on one of the elements. *)
Lemma for_Raise_inv {A S} (body : A → S → M S) (xs : list A) st e w w' :
  for_ xs body st w = (Raise e, w') →
  ∃ x st1 w1, x ∈ xs ∧ body x st1 w1 = (Raise e, w').
Proof.
  revert st w. induction xs as [|x xs IH]; intros st w; simpl; [done|].
  intros [Hx|(st1 & w1 & _ & Hrest)]%bind_Raise_inv.
  - exists x, st, w. split; [left | done].
  - destruct (IH _ _ Hrest) as (x' & st' & w2 & Hin & Hraise).
    exists x', st', w2. split; [by right | done].
Qed.

Lemma float_of_int_Raise z e : float_of_int z = Raise e → e = OverflowError.
Proof. unfold float_of_int. by case_match; intros [= <-]. Qed.

Lemma truediv_Raise x y e :
  truediv x y = Raise e → e = ZeroDivisionError ∧ PrimFloat.eqb y 0 = true.
Proof. unfold truediv. destruct (PrimFloat.eqb y 0); [by intros [= <-] | done]. Qed.

Lemma truediv_Ok_inv x y v :
  truediv x y = Ok v → v = (x / y)%float ∧ PrimFloat.eqb y 0 = false.
Proof. unfold truediv. destruct (PrimFloat.eqb y 0); [done | by intros [= <-]]. Qed.

(** The division by [1e12] of a cost cannot fail; the conversion of the
    count to a [float] can. *)
Lemma cost_Raise count e : int_truediv count 1e12 = Raise e → e = OverflowError.
Proof.
  unfold int_truediv. destruct (float_of_int count) as [x|e'] eqn:Hx; simpl.
  - by intros [_ [=]]%truediv_Raise.
  - intros [= <-]. by eapply float_of_int_Raise.
Qed.

Lemma forward_Raise cross b s h e : forward cross b s h = Raise e → e = OverflowError.
Proof.
  unfold forward, ffn, atten.
  destruct (int_truediv (ffn_flop b s h) 1e12) eqn:Hffn; simpl.
  - destruct (int_truediv (atten_flop b s h) 1e12) eqn:Hatten; simpl; [done|].
    intros [= <-]. by eapply cost_Raise.
  - intros [= <-]. by eapply cost_Raise.
Qed.

(** What a sweep point that returns has done. *)
Lemma layer_benchmark_body_Ok_inv layer h cross enc s b results results' w w' :
  layer_benchmark_body layer h cross enc s b results w = (Ok results', w') →
  ∃ f d t1 t2 w2 w3,
    forward cross b s h = Ok f ∧
    walltime (fwd_stmt enc) d 5 w2 = (Ok t1, w3) ∧
    PrimFloat.eqb t1 0 = false ∧
    walltime (fwd_bwd_stmt enc) d 5 w3 = (Ok t2, w') ∧
    PrimFloat.eqb t2 0 = false ∧
    results' =
      setitem2 (batch_label b) (fwd_bwd_label s) (3 * f / t2)%float
        (setitem2 (batch_label b) (fwd_label s) (f / t1)%float results).
Proof.
  unfold layer_benchmark_body.
  intros (f & w0 & [Hf ->]%lift_Ok_inv & Hrun)%bind_Ok_inv.
  apply bind_Ok_inv in Hrun as (X & w2 & _ & Hrun).
  apply bind_Ok_inv in Hrun as (d & ? & [Hd ->]%lift_Ok_inv & Hrun).
  apply bind_Ok_inv in Hrun as (t1 & w3 & Ht1 & Hrun).
  apply bind_Ok_inv in Hrun as (v1 & ? & [Hv1 ->]%lift_Ok_inv & Hrun).
  apply bind_Ok_inv in Hrun as (d' & ? & [Hd' ->]%lift_Ok_inv & Hrun).
  apply bind_Ok_inv in Hrun as (t2 & w4 & Ht2 & Hrun).
  apply bind_Ok_inv in Hrun as (v2 & ? & [Hv2 ->]%lift_Ok_inv & Hrun).
  injection Hrun as <- <-.
  apply truediv_Ok_inv in Hv1 as [-> Hnz1], Hv2 as [-> Hnz2].
  assert (d' = d) as -> by congruence.
  by exists f, d, t1, t2, w2, w3.
Qed.

(** The same, with the calls of the point in the worlds they ran in. *)
Lemma layer_benchmark_body_Ok_run layer h cross enc s b results results' w w' :
  layer_benchmark_body layer h cross enc s b results w = (Ok results', w') →
  ∃ f X d t1 t2 w2 w3,
    forward cross b s h = Ok f ∧
    (randn [b; s; h] float32 ≫= half : M Obj) w = (Ok X, w2) ∧
    var_dict (layer_benchmark_locals layer X) [layer; X] = Ok d ∧
    walltime (fwd_stmt enc) d 5 w2 = (Ok t1, w3) ∧
    PrimFloat.eqb t1 0 = false ∧
    walltime (fwd_bwd_stmt enc) d 5 w3 = (Ok t2, w') ∧
    PrimFloat.eqb t2 0 = false ∧
    results' =
      setitem2 (batch_label b) (fwd_bwd_label s) (3 * f / t2)%float
        (setitem2 (batch_label b) (fwd_label s) (f / t1)%float results).
Proof.
  unfold layer_benchmark_body.
  intros (f & w0 & [Hf ->]%lift_Ok_inv & Hrun)%bind_Ok_inv.
  apply bind_Ok_inv in Hrun as (X & w2 & HX & Hrun).
  apply bind_Ok_inv in Hrun as (d & ? & [Hd ->]%lift_Ok_inv & Hrun).
  apply bind_Ok_inv in Hrun as (t1 & w3 & Ht1 & Hrun).
  apply bind_Ok_inv in Hrun as (v1 & ? & [Hv1 ->]%lift_Ok_inv & Hrun).
  apply bind_Ok_inv in Hrun as (d' & ? & [Hd' ->]%lift_Ok_inv & Hrun).
  apply bind_Ok_inv in Hrun as (t2 & w4 & Ht2 & Hrun).
  apply bind_Ok_inv in Hrun as (v2 & ? & [Hv2 ->]%lift_Ok_inv & Hrun).
  injection Hrun as <- <-.
  apply truediv_Ok_inv in Hv1 as [-> Hnz1], Hv2 as [-> Hnz2].
  assert (d' = d) as -> by congruence.
  by exists f, X, d, t1, t2, w2, w3.
Qed.

(** Where the exception of a sweep point that raises comes from. *)
Lemma layer_benchmark_body_Raise_inv layer h cross enc s b results e w w' :
  layer_benchmark_body layer h cross enc s b results w = (Raise e, w') →
  e = OverflowError ∨ e = ZeroDivisionError ∨
  (∃ shape dtype w0, randn shape dtype w0 = (Raise e, w')) ∨
  (∃ X w0, half X w0 = (Raise e, w')) ∨
  (∃ stmt d duration w0, blocked_autorange stmt d duration w0 = (Raise e, w')).
Proof.
  unfold layer_benchmark_body.
  intros [[He _]%lift_Raise_inv|(f & ? & [Hf ->]%lift_Ok_inv & Hrun)]%bind_Raise_inv.
  { left. by eapply forward_Raise. }
  apply bind_Raise_inv in Hrun as [HX|(X & w2 & HX & Hrun)].
  { apply bind_Raise_inv in HX as [HX0|(X0 & w1 & _ & HX)].
    - right. right. left. by eexists _, _, _.
    - right. right. right. left. by eexists _, _. }
  destruct (layer_benchmark_locals_bound layer X) as [d Hd].
  rewrite Hd in Hrun.
  apply bind_Raise_inv in Hrun as [[[=] _]%lift_Raise_inv|(? & ? & [[= <-] ->]%lift_Ok_inv & Hrun)].
  apply bind_Raise_inv in Hrun as [[Ht1|[-> _]]%walltime_Raise_inv|(t1 & w3 & _ & Hrun)];
    [right; right; right; right; by eexists _, _, _, _ | right; by left |].
  apply bind_Raise_inv in Hrun as [[[-> _]%truediv_Raise _]%lift_Raise_inv|(v1 & ? & _ & Hrun)].
  { right. by left. }
  apply bind_Raise_inv in Hrun as [[[=] _]%lift_Raise_inv|(? & ? & _ & Hrun)].
  apply bind_Raise_inv in Hrun as [[Ht2|[-> _]]%walltime_Raise_inv|(t2 & w4 & _ & Hrun)];
    [right; right; right; right; by eexists _, _, _, _ | right; by left |].
  apply bind_Raise_inv in Hrun as [[[-> _]%truediv_Raise _]%lift_Raise_inv|(v2 & ? & _ & Hrun)].
  { right. by left. }
  discriminate Hrun.
Qed.

End inversion.

(** ** The labels of the table *)

Lemma batch_label_inj (b b' : Z) : batch_label b = batch_label b' → b = b'.
Proof. unfold batch_label. simpl. intros [= Heq]. by apply (inj pretty). Qed.

Lemma fwd_label_inj (s s' : Z) : fwd_label s = fwd_label s' → s = s'.
Proof. unfold fwd_label. simpl. intros [= Heq]. by apply (inj pretty). Qed.

Lemma fwd_bwd_label_inj (s s' : Z) : fwd_bwd_label s = fwd_bwd_label s' → s = s'.
Proof. unfold fwd_bwd_label. simpl. intros [= Heq]. by apply (inj pretty). Qed.

Lemma NoDup_list_prod {A B} (l : list A) (k : list B) :
  NoDup l → NoDup k → NoDup (list_prod l k).
Proof.
  intros Hl Hk. induction Hl as [|x l Hx Hl IH]; simpl; [constructor|].
  apply NoDup_app. split_and!; [|  |done].
  - change (NoDup ((λ y, (x, y)) <$> k)). apply NoDup_fmap_2; [|done].
    by intros y y' [=].
  - intros [x' y] Hin Hin'.
    change ((x', y) ∈ (λ y, (x, y)) <$> k) in Hin.
    apply list_elem_of_fmap in Hin as (y' & [= -> ->] & _).
    by apply list_elem_of_In, in_prod_iff in Hin' as [?%list_elem_of_In _].
Qed.

Lemma elem_of_list_prod {A B} (l : list A) (k : list B) x y :
  (x, y) ∈ list_prod l k ↔ x ∈ l ∧ y ∈ k.
Proof. by rewrite list_elem_of_In, in_prod_iff, <- !list_elem_of_In. Qed.

(** The two keys a sweep point writes. *)
Lemma point_keys_NoDup (points : list (Z * Z)) :
  NoDup points →
  NoDup (points ≫= λ p, [(batch_label p.2, fwd_label p.1);
                         (batch_label p.2, fwd_bwd_label p.1)]).
Proof.
  intros Hpoints. apply NoDup_bind; [| |done].
  - intros [s b] [s' b'] key _ _ Hkey Hkey'.
    cbn beta iota delta [fst snd] in Hkey, Hkey'.
    apply elem_of_cons in Hkey as [Hk|Hk%list_elem_of_singleton]; subst key;
      apply elem_of_cons in Hkey' as [Heq|Heq%list_elem_of_singleton];
      pose proof (f_equal fst Heq) as Hb; pose proof (f_equal snd Heq) as Hs;
      cbn [fst snd] in Hb, Hs.
    + f_equal; [by apply fwd_label_inj | by apply batch_label_inj].
    + by destruct (fwd_label_ne_fwd_bwd_label s s').
    + by destruct (fwd_label_ne_fwd_bwd_label s' s).
    + f_equal; [by apply fwd_bwd_label_inj | by apply batch_label_inj].
  - intros [s b] _. cbn beta iota delta [fst snd]. apply NoDup_cons.
    split; [|apply NoDup_singleton].
    intros Heq%list_elem_of_singleton.
    by destruct (fwd_label_ne_fwd_bwd_label s s (f_equal snd Heq)).
Qed.

Lemma point_keys_length (points : list (Z * Z)) :
  length (points ≫= λ p, [(batch_label p.2, fwd_label p.1);
                          (batch_label p.2, fwd_bwd_label p.1)]) =
  (2 * length points)%nat.
Proof.
  induction points as [|p points IH]; [done|].
  rewrite bind_cons, length_app, IH. simpl. lia.
Qed.

Section sweep_inversion.
Context {T : Torch}.

(** The entries of the table of a sweep that returns. *)
Lemma layer_benchmark_Ok_cells layer h ss bs cross df w w' :
  layer_benchmark layer h ss bs cross w = (Ok df, w') →
  ∀ col row, (col, row) ∈ cells df ↔
    ∃ s b, s ∈ ss ∧ b ∈ bs ∧ col = batch_label b ∧
           (row = fwd_label s ∨ row = fwd_bwd_label s).
Proof.
  rewrite layer_benchmark_flat. intros Hrun.
  pose (Inv := λ (done : list (Z * Z)) (r : gmap string (gmap string float)),
          ∀ col row, (col, row) ∈ cells r ↔
            ∃ s b, (s, b) ∈ done ∧ col = batch_label b ∧
                   (row = fwd_label s ∨ row = fwd_bwd_label s)).
  assert (Inv (list_prod ss bs) df) as Hcells.
  { eapply (for_Ok_ind Inv); [| |exact Hrun].
    - intros col row. rewrite cells_empty. split; [by intros []%not_elem_of_empty|].
      by intros (? & ? & []%elem_of_nil & _).
    - intros before [s b] st st' w0 w1 HInv Hpoint col row.
      apply layer_benchmark_body_Ok_inv in Hpoint
        as (f & d & t1 & t2 & w2 & w3 & _ & _ & _ & _ & _ & ->).
      rewrite !cells_setitem2, !elem_of_union, !elem_of_singleton, (HInv col row).
      setoid_rewrite elem_of_app. setoid_rewrite list_elem_of_singleton. split.
      + intros [Heq|[Heq|(s' & b' & Hin & Hcol & Hrow)]].
        * exists s, b. split_and!; [by right | exact (f_equal fst Heq) |].
          right. exact (f_equal snd Heq).
        * exists s, b. split_and!; [by right | exact (f_equal fst Heq) |].
          left. exact (f_equal snd Heq).
        * exists s', b'. auto.
      + intros (s' & b' & [Hin|Heq] & -> & Hrow).
        * right. right. by exists s', b'.
        * injection Heq as -> ->. destruct Hrow as [->| ->]; auto. }
  intros col row. rewrite (Hcells col row).
  split; intros (s & b & Hrest); exists s, b;
    rewrite elem_of_list_prod in *; tauto.
Qed.

Lemma layer_benchmark_Ok_size layer h ss bs cross df w w' :
  layer_benchmark layer h ss bs cross w = (Ok df, w') →
  NoDup ss → NoDup bs →
  size (cells df) = (2 * length ss * length bs)%nat.
Proof.
  intros Hrun Hss Hbs.
  assert (cells df =
            list_to_set (list_prod ss bs ≫= λ p,
              [(batch_label p.2, fwd_label p.1);
               (batch_label p.2, fwd_bwd_label p.1)])) as ->.
  { apply set_eq. intros [col row].
    rewrite (layer_benchmark_Ok_cells _ _ _ _ _ _ _ _ Hrun col row).
    rewrite elem_of_list_to_set, list_elem_of_bind. split.
    - intros (s & b & Hs & Hb & -> & Hrow). exists (s, b).
      rewrite elem_of_list_prod. split; [|done]. cbn beta iota delta [fst snd].
      destruct Hrow as [->| ->]; [left | right; left].
    - intros ([s b] & Hkey & [Hs Hb]%elem_of_list_prod).
      cbn beta iota delta [fst snd] in Hkey.
      exists s, b. split_and!; [done..| |].
      + apply elem_of_cons in Hkey as [Heq|Heq%list_elem_of_singleton];
          exact (f_equal fst Heq).
      + apply elem_of_cons in Hkey as [Heq|Heq%list_elem_of_singleton];
          [left | right]; exact (f_equal snd Heq). }
  rewrite size_list_to_set by (by apply point_keys_NoDup, NoDup_list_prod).
  rewrite point_keys_length, length_prod. lia.
Qed.

End sweep_inversion.

(** ** [layer_benchmark]: tables and exceptions *)

Section sweep_entries.
Context {T : Torch}.

(** The points run after a point leave its two entries as they are, as
    long as the point is not among them. *)
Lemma sweep_keeps_entries layer h cross enc (points : list (Z * Z)) s b
    results df w w' :
  (s, b) ∉ points →
  for_ points (λ p, layer_benchmark_body layer h cross enc p.1 p.2) results w =
    (Ok df, w') →
  cell df (batch_label b) (fwd_label s) =
    cell results (batch_label b) (fwd_label s) ∧
  cell df (batch_label b) (fwd_bwd_label s) =
    cell results (batch_label b) (fwd_bwd_label s).
Proof.
  revert results w. induction points as [|[s1 b1] points IH]; intros results w Hnot.
  - by intros [= <- _].
  - simpl. intros (results1 & w1 & Hpoint & Hrest)%bind_Ok_inv.
    apply not_elem_of_cons in Hnot as [Hne Hnot].
    destruct (IH _ _ Hnot Hrest) as [-> ->].
    apply layer_benchmark_body_Ok_inv in Hpoint
      as (f & d & t1 & t2 & w2 & w3 & _ & _ & _ & _ & _ & ->).
    rewrite !cell_setitem2. split.
    + rewrite !decide_False; [done| |].
      * intros Heq. apply Hne. f_equal;
          [exact (fwd_label_inj _ _ (eq_sym (f_equal snd Heq)))
          |exact (batch_label_inj _ _ (eq_sym (f_equal fst Heq)))].
      * intros Heq.
        by destruct (fwd_label_ne_fwd_bwd_label s s1 (eq_sym (f_equal snd Heq))).
    + rewrite !decide_False; [done| |].
      * intros Heq.
        by destruct (fwd_label_ne_fwd_bwd_label s1 s (f_equal snd Heq)).
      * intros Heq. apply Hne. f_equal;
          [exact (fwd_bwd_label_inj _ _ (eq_sym (f_equal snd Heq)))
          |exact (batch_label_inj _ _ (eq_sym (f_equal fst Heq)))].
Qed.

(** Every point of a sweep that returns has its two entries in the table:
    the ones written when the point was run for the last time. *)
Lemma layer_benchmark_Ok_entries layer h ss bs cross df w w' s b :
  layer_benchmark layer h ss bs cross w = (Ok df, w') →
  s ∈ ss → b ∈ bs →
  let body := λ p : Z * Z,
    layer_benchmark_body layer h cross (encoder_state cross) p.1 p.2 in
  ∃ before after results f X d t1 t2 w1 w2 w3 w4,
    list_prod ss bs = before ++ (s, b) :: after ∧
    ((s, b) ∉ after) ∧
    for_ before body ∅ w = (Ok results, w1) ∧
    forward cross b s h = Ok f ∧
    (randn [b; s; h] float32 ≫= half : M Obj) w1 = (Ok X, w2) ∧
    var_dict (layer_benchmark_locals layer X) [layer; X] = Ok d ∧
    walltime (fwd_stmt (encoder_state cross)) d 5 w2 = (Ok t1, w3) ∧
    PrimFloat.eqb t1 0 = false ∧
    walltime (fwd_bwd_stmt (encoder_state cross)) d 5 w3 = (Ok t2, w4) ∧
    PrimFloat.eqb t2 0 = false ∧
    for_ after body
      (setitem2 (batch_label b) (fwd_bwd_label s) (3 * f / t2)%float
         (setitem2 (batch_label b) (fwd_label s) (f / t1)%float results)) w4 =
      (Ok df, w') ∧
    cell df (batch_label b) (fwd_label s) = Some (f / t1)%float ∧
    cell df (batch_label b) (fwd_bwd_label s) = Some (3 * f / t2)%float.
Proof.
  rewrite layer_benchmark_flat. intros Hrun Hs Hb body.
  assert ((s, b) ∈ list_prod ss bs) as (before & after & Hsplit & Hlast)%list_elem_of_split_r
    by by apply elem_of_list_prod.
  rewrite Hsplit, for_app in Hrun.
  apply bind_Ok_inv in Hrun as (results & w1 & Hbefore & Hrun).
  simpl in Hrun. apply bind_Ok_inv in Hrun as (results1 & w4 & Hpoint & Hafter).
  apply layer_benchmark_body_Ok_run in Hpoint
    as (f & X & d & t1 & t2 & w2 & w3 & Hf & HX & Hd & Ht1 & Hnz1 & Ht2 & Hnz2 & ->).
  exists before, after, results, f, X, d, t1, t2, w1, w2, w3, w4.
  split_and!; try done.
  - destruct (sweep_keeps_entries _ _ _ _ _ _ _ _ _ _ _ Hlast Hafter) as [-> _].
    rewrite !cell_setitem2. rewrite decide_False; [by rewrite decide_True|].
    intros Heq. by destruct (fwd_label_ne_fwd_bwd_label s s (eq_sym (f_equal snd Heq))).
  - destruct (sweep_keeps_entries _ _ _ _ _ _ _ _ _ _ _ Hlast Hafter) as [_ ->].
    rewrite cell_setitem2. by rewrite decide_True.
Qed.

Lemma layer_benchmark_Raise_inv layer h ss bs cross e w w' :
  layer_benchmark layer h ss bs cross w = (Raise e, w') →
  e = OverflowError ∨ e = ZeroDivisionError ∨
  (∃ shape dtype w0, randn shape dtype w0 = (Raise e, w')) ∨
  (∃ X w0, half X w0 = (Raise e, w')) ∨
  (∃ stmt d duration w0, blocked_autorange stmt d duration w0 = (Raise e, w')).
Proof.
  rewrite layer_benchmark_flat.
  intros (p & st & w1 & _ & Hpoint)%for_Raise_inv.
  by eapply layer_benchmark_body_Raise_inv.
Qed.

Lemma layer_benchmark_no_batch layer h ss cross w :
  layer_benchmark layer h ss [] cross w = (Ok ∅, w).
Proof.
  unfold layer_benchmark. induction ss as [|s ss IH]; [done|].
  simpl. by rewrite bind_run.
Qed.

End sweep_entries.

(** X8. A sweep over no sequence lengths, or over no batch sizes, returns
    the empty table and makes no library call. *)
Theorem layer_benchmark_empty {T : Torch}
    (layer : Obj) (h : Z) (seq_lens batch_sizes : list Z) (cross_attention : bool)
    (w : World) :
  layer_benchmark layer h [] batch_sizes cross_attention w = (Ok ∅, w) ∧
  layer_benchmark layer h seq_lens [] cross_attention w = (Ok ∅, w).
Proof. split; [done | apply layer_benchmark_no_batch]. Qed.

(** X9. Whenever [layer_benchmark] returns, its table has an entry exactly
    under [batch=b] and [fwd seq_len=s] or [fwd+bwd seq_len=s] for the [s]
    of [seq_lens] and the [b] of [batch_sizes]; when neither list repeats a
    value these are twice as many entries as there are pairs. *)
Theorem layer_benchmark_table_keys {T : Torch}
    (layer : Obj) (h : Z) (seq_lens batch_sizes : list Z) (cross_attention : bool)
    (df : gmap string (gmap string float)) (w w' : World) :
  layer_benchmark layer h seq_lens batch_sizes cross_attention w = (Ok df, w') →
  (∀ col row, (col, row) ∈ cells df ↔
     ∃ s b, s ∈ seq_lens ∧ b ∈ batch_sizes ∧ col = batch_label b ∧
            (row = fwd_label s ∨ row = fwd_bwd_label s)) ∧
  (NoDup seq_lens → NoDup batch_sizes →
   size (cells df) = (2 * length seq_lens * length batch_sizes)%nat).
Proof.
  intros Hrun. split.
  - by eapply layer_benchmark_Ok_cells.
  - by eapply layer_benchmark_Ok_size.
Qed.

(** A sweep with a repeated batch size: the repetition adds no entry. *)
Lemma layer_benchmark_table_keys_witness :
  ∃ df w',
    layer_benchmark (T := Sim.torch) Sim.bert_layer 1024 [128; 512] [2; 4; 2] false
      Sim.quiet = (Ok df, w') ∧
    (("batch=4", "fwd+bwd seq_len=512") ∈ cells df) ∧
    (("batch=8", "fwd seq_len=128") ∉ cells df).
Proof.
  assert (∃ df w', layer_benchmark (T := Sim.torch) Sim.bert_layer 1024
                     [128; 512] [2; 4; 2] false Sim.quiet = (Ok df, w'))
    as (df & w' & Hrun) by (eexists _, _; evaluate).
  exists df, w'. split; [exact Hrun|].
  destruct (layer_benchmark_table_keys (T := Sim.torch) _ _ _ _ _ _ _ _ Hrun)
    as [Hkeys _].
  split.
  - apply Hkeys. exists 512, 4. split_and!; [| |done|by right].
    + right. left.
    + right. left.
  - intros (s & b & _ & Hb & Hcol & _)%Hkeys.
    change "batch=8" with (batch_label 8) in Hcol.
    apply batch_label_inj in Hcol as <-.
    repeat (apply elem_of_cons in Hb as [[=]|Hb]). by apply elem_of_nil in Hb.
Defined.

(** X10. The four sweeps of the notebook, when they return, give tables of
    28 (BERT: 2 sequence lengths, 7 batch sizes), 24 (GPT-2: 2 and 6), 14
    and 14 (T5 encoder and decoder: 1 and 7) entries. *)
Theorem notebook_sweep_sizes {T : Torch} (layer : Obj) (hidden_size : Z)
    (df : gmap string (gmap string float)) (w w' : World) :
  (bert_layer_sweep layer hidden_size w = (Ok df, w') → size (cells df) = 28%nat) ∧
  (gpt2_block_sweep layer hidden_size w = (Ok df, w') → size (cells df) = 24%nat) ∧
  (t5_encoder_sweep layer hidden_size w = (Ok df, w') → size (cells df) = 14%nat) ∧
  (t5_decoder_sweep layer hidden_size w = (Ok df, w') → size (cells df) = 14%nat).
Proof.
  unfold bert_layer_sweep, gpt2_block_sweep, t5_encoder_sweep, t5_decoder_sweep.
  split_and!; intros Hrun;
    rewrite (layer_benchmark_Ok_size _ _ _ _ _ _ _ _ Hrun);
    try reflexivity; apply (bool_decide_unpack _); reflexivity.
Qed.

Lemma notebook_sweep_sizes_witness :
  ∃ df w',
    t5_decoder_sweep (T := Sim.torch) (mkObj 0 (Module "T5Block")) 1024 Sim.quiet =
      (Ok df, w') ∧
    size (cells df) = 14%nat.
Proof.
  assert (∃ df w', t5_decoder_sweep (T := Sim.torch) (mkObj 0 (Module "T5Block"))
                     1024 Sim.quiet = (Ok df, w'))
    as (df & w' & Hrun) by (eexists _, _; evaluate).
  exists df, w'. split; [exact Hrun|].
  destruct (notebook_sweep_sizes (T := Sim.torch) (mkObj 0 (Module "T5Block"))
              1024 df Sim.quiet w') as (_ & _ & _ & Hsize).
  exact (Hsize Hrun).
Defined.

(** X11. [layer_benchmark] raises nothing of its own but [OverflowError]
    (a cost too large for a [float]) and [ZeroDivisionError] (a measured
    time of zero): any other exception is one a library call raised. The
    [IndexError] of [var_dict] never comes out of it. *)
Theorem layer_benchmark_exceptions {T : Torch}
    (layer : Obj) (h : Z) (seq_lens batch_sizes : list Z) (cross_attention : bool)
    (e : exn) (w w' : World) :
  layer_benchmark layer h seq_lens batch_sizes cross_attention w = (Raise e, w') →
  e = OverflowError ∨ e = ZeroDivisionError ∨
  (∃ shape dtype w0, randn shape dtype w0 = (Raise e, w')) ∨
  (∃ X w0, half X w0 = (Raise e, w')) ∨
  (∃ stmt d duration w0, blocked_autorange stmt d duration w0 = (Raise e, w')).
Proof. apply layer_benchmark_Raise_inv. Qed.

(** The scripted library raises nothing; a zero median makes the sweep
    raise. *)
Lemma layer_benchmark_exceptions_witness :
  let w := Sim.mkWorld 1 [Ok [1%float]; Ok [0%float]] in
  ∃ e w',
    layer_benchmark (T := Sim.torch) Sim.bert_layer 1024 [128] [2] false w =
      (Raise e, w') ∧
    e = ZeroDivisionError.
Proof.
  intros w. eexists _, _. split; [evaluate|].
  destruct (layer_benchmark_exceptions (T := Sim.torch) Sim.bert_layer 1024
              [128] [2] false ZeroDivisionError w (Sim.mkWorld 3 []))
    as [?|[?|[(? & ? & ? & ?)|[(? & ? & ?)|(? & ? & ? & ? & Htimer)]]]];
    [by vm_compute|done..].
Defined.

Section sweep_failures.
Context {T : Torch}.

Lemma layer_benchmark_body_fwd_zero layer h cross enc s b results
    f X0 X d m1 w w1 w2 w3 :
  forward cross b s h = Ok f →
  randn [b; s; h] float32 w = (Ok X0, w1) →
  half X0 w1 = (Ok X, w2) →
  var_dict (layer_benchmark_locals layer X) [layer; X] = Ok d →
  blocked_autorange (fwd_stmt enc) d 5 w2 = (Ok m1, w3) →
  PrimFloat.eqb (median m1) 0 = true →
  layer_benchmark_body layer h cross enc s b results w =
    (Raise ZeroDivisionError, w3).
Proof.
  intros Hf HX0 HX Hd Hm1 Hz1. unfold layer_benchmark_body.
  run Hf. run (randn_half_Ok _ _ _ _ _ _ _ HX0 HX).
  run Hd. by run (walltime_zero _ _ _ _ _ _ Hm1 Hz1).
Qed.

Lemma layer_benchmark_body_bwd_zero layer h cross enc s b results
    f X0 X d m1 m2 w w1 w2 w3 w4 :
  forward cross b s h = Ok f →
  randn [b; s; h] float32 w = (Ok X0, w1) →
  half X0 w1 = (Ok X, w2) →
  var_dict (layer_benchmark_locals layer X) [layer; X] = Ok d →
  blocked_autorange (fwd_stmt enc) d 5 w2 = (Ok m1, w3) →
  PrimFloat.eqb (median m1) 0 = false →
  blocked_autorange (fwd_bwd_stmt enc) d 5 w3 = (Ok m2, w4) →
  PrimFloat.eqb (median m2) 0 = true →
  layer_benchmark_body layer h cross enc s b results w =
    (Raise ZeroDivisionError, w4).
Proof.
  intros Hf HX0 HX Hd Hm1 Hnz1 Hm2 Hz2. unfold layer_benchmark_body.
  run Hf. run (randn_half_Ok _ _ _ _ _ _ _ HX0 HX).
  run Hd. run (walltime_Ok _ _ _ _ _ _ Hm1 Hnz1). run (truediv_Ok f _ Hnz1).
  run Hd. by run (walltime_zero _ _ _ _ _ _ Hm2 Hz2).
Qed.

Lemma layer_benchmark_body_cost_Raise layer h cross enc s b results e w :
  forward cross b s h = Raise e →
  layer_benchmark_body layer h cross enc s b results w = (Raise e, w).
Proof. intros Hf. unfold layer_benchmark_body. by run Hf. Qed.

End sweep_failures.

(** X12. A measured time of zero is not guarded: at a sweep point a
    forward measurement whose median is zero (plus or minus), or after a
    forward measurement that is not, a forward and backward measurement
    whose median is zero, makes the point raise [ZeroDivisionError]; no
    entry is returned. *)
Theorem layer_benchmark_zero_time {T : Torch}
    (layer : Obj) (h : Z) (cross_attention : bool) (s b : Z)
    (results : gmap string (gmap string float))
    (f : float) (X0 X : Obj) (d : gmap string Obj) (m1 : Measurement)
    (w w1 w2 w3 : World) :
  forward cross_attention b s h = Ok f →
  randn [b; s; h] float32 w = (Ok X0, w1) →
  half X0 w1 = (Ok X, w2) →
  var_dict (layer_benchmark_locals layer X) [layer; X] = Ok d →
  blocked_autorange (fwd_stmt (encoder_state cross_attention)) d 5 w2 = (Ok m1, w3) →
  let point :=
    layer_benchmark_body layer h cross_attention (encoder_state cross_attention)
      s b results w in
  (PrimFloat.eqb (median m1) 0 = true → point = (Raise ZeroDivisionError, w3)) ∧
  (∀ m2 w4,
     PrimFloat.eqb (median m1) 0 = false →
     blocked_autorange (fwd_bwd_stmt (encoder_state cross_attention)) d 5 w3 =
       (Ok m2, w4) →
     PrimFloat.eqb (median m2) 0 = true →
     point = (Raise ZeroDivisionError, w4)).
Proof.
  intros Hf HX0 HX Hd Hm1 point. split.
  - intros Hz1. by eapply layer_benchmark_body_fwd_zero.
  - intros m2 w4 Hnz1 Hm2 Hz2. by eapply layer_benchmark_body_bwd_zero.
Qed.

(** A forward measurement of one second, a forward and backward
    measurement of minus zero. *)
Lemma layer_benchmark_zero_time_witness :
  let w := Sim.mkWorld 1 [Ok [1%float]; Ok [(-0)%float]] in
  layer_benchmark_body (T := Sim.torch) Sim.bert_layer 1024 false
    (encoder_state false) 128 2 ∅ w = (Raise ZeroDivisionError, Sim.mkWorld 3 []).
Proof.
  intros w.
  assert (∃ f, forward false 2 128 1024 = Ok f) as [f Hf] by (eexists; evaluate).
  pose (X0 := mkObj 1 (Tensor [2; 128; 1024] float32)).
  pose (X := mkObj 2 (Tensor [2; 128; 1024] float16)).
  pose (script := [Ok [1%float]; Ok [(-0)%float]]).
  destruct (layer_benchmark_zero_time (T := Sim.torch)
              Sim.bert_layer 1024 false 128 2 ∅ f X0 X
              {[ "layer" := Sim.bert_layer; "X" := X ]} [1%float]
              w (Sim.mkWorld 2 script) (Sim.mkWorld 3 script)
              (Sim.mkWorld 3 [Ok [(-0)%float]]))
    as [_ Hbwd]; [exact Hf | reflexivity..|].
  by apply (Hbwd [(-0)%float] (Sim.mkWorld 3 [])).
Defined.

(** X13. The cost is computed before anything else: when it does not fit a
    [float], the sweep point raises [OverflowError] without a library call,
    and so does a sweep whose first point it is. *)
Theorem layer_benchmark_cost_overflow {T : Torch}
    (layer : Obj) (h : Z) (cross_attention : bool) (s b : Z)
    (seq_lens batch_sizes : list Z)
    (results : gmap string (gmap string float)) (e : exn) (w : World) :
  forward cross_attention b s h = Raise e →
  e = OverflowError ∧
  layer_benchmark_body layer h cross_attention (encoder_state cross_attention)
    s b results w = (Raise OverflowError, w) ∧
  layer_benchmark layer h (s :: seq_lens) (b :: batch_sizes) cross_attention w =
    (Raise OverflowError, w).
Proof.
  intros Hf. assert (e = OverflowError) as -> by (by eapply forward_Raise).
  split; [done|]. split; [by apply layer_benchmark_body_cost_Raise|].
  rewrite layer_benchmark_flat.
  apply (for_Raise [] _ (s, b)) with (st' := ∅) (w1 := w); [done|].
  by apply layer_benchmark_body_cost_Raise.
Qed.

(** A hidden size of [2^600]. *)
Lemma layer_benchmark_cost_overflow_witness :
  layer_benchmark (T := Sim.torch) Sim.bert_layer (2 ^ 600) [128; 512] [2; 4] false
    Sim.quiet = (Raise OverflowError, Sim.quiet).
Proof.
  apply (layer_benchmark_cost_overflow (T := Sim.torch) Sim.bert_layer (2 ^ 600)
           false 128 2 [512] [4] ∅ OverflowError Sim.quiet).
  by vm_compute.
Defined.

(** X14. In the table [layer_benchmark] returns, the two entries of every
    point are the ones written when the sweep ran the point for the last
    time: the sweep reached the point with some table in some world,
    allocated the tensor there, timed the forward statement and then the
    forward and backward statement on the mapping [var_dict(layer, X)],
    both times non-zero, stored the analytic forward cost over the first
    time and three times that cost over the second, and the rest of the
    sweep, which ends in the returned table and world, left both
    entries. *)
Theorem layer_benchmark_entries {T : Torch}
    (layer : Obj) (h : Z) (seq_lens batch_sizes : list Z) (cross_attention : bool)
    (df : gmap string (gmap string float)) (w w' : World) (s b : Z) :
  layer_benchmark layer h seq_lens batch_sizes cross_attention w = (Ok df, w') →
  s ∈ seq_lens → b ∈ batch_sizes →
  let body := λ p : Z * Z,
    layer_benchmark_body layer h cross_attention (encoder_state cross_attention)
      p.1 p.2 in
  ∃ before after results f X d t1 t2 w1 w2 w3 w4,
    list_prod seq_lens batch_sizes = before ++ (s, b) :: after ∧
    ((s, b) ∉ after) ∧
    for_ before body ∅ w = (Ok results, w1) ∧
    forward cross_attention b s h = Ok f ∧
    (randn [b; s; h] float32 ≫= half : M Obj) w1 = (Ok X, w2) ∧
    var_dict (layer_benchmark_locals layer X) [layer; X] = Ok d ∧
    walltime (fwd_stmt (encoder_state cross_attention)) d 5 w2 = (Ok t1, w3) ∧
    PrimFloat.eqb t1 0 = false ∧
    walltime (fwd_bwd_stmt (encoder_state cross_attention)) d 5 w3 = (Ok t2, w4) ∧
    PrimFloat.eqb t2 0 = false ∧
    for_ after body
      (setitem2 (batch_label b) (fwd_bwd_label s) (3 * f / t2)%float
         (setitem2 (batch_label b) (fwd_label s) (f / t1)%float results)) w4 =
      (Ok df, w') ∧
    cell df (batch_label b) (fwd_label s) = Some (f / t1)%float ∧
    cell df (batch_label b) (fwd_bwd_label s) = Some (3 * f / t2)%float.
Proof. apply layer_benchmark_Ok_entries. Qed.

(** Two batch sizes timed at 1/2, 2, 1/4 and 4 seconds: the second
    point's entries are its cost over 1/4 and three times its cost over
    4. *)
Lemma layer_benchmark_entries_witness :
  let w := Sim.mkWorld 1 [Ok [0.5%float]; Ok [2%float]; Ok [0.25%float]; Ok [4%float]] in
  ∃ df w' f,
    layer_benchmark (T := Sim.torch) Sim.bert_layer 1024 [128] [2; 4] false w =
      (Ok df, w') ∧
    forward false 4 128 1024 = Ok f ∧
    cell df "batch=4" "fwd seq_len=128" = Some (f / 0.25)%float ∧
    cell df "batch=4" "fwd+bwd seq_len=128" = Some (3 * f / 4)%float.
Proof.
  intros w.
  assert (∃ df w', layer_benchmark (T := Sim.torch) Sim.bert_layer 1024 [128] [2; 4]
                     false w = (Ok df, w')) as (df & w' & Hrun)
    by (eexists _, _; evaluate).
  destruct (layer_benchmark_entries (T := Sim.torch) _ _ _ _ _ _ _ _ 128 4 Hrun)
    as (_ & _ & _ & f & _ & _ & _ & _ & _ & _ & _ & _ & _ & _ & _ & Hf & _);
    [left | right; left |].
  exists df, w', f. split; [done|]. split; [done|].
  injection Hrun as <- _. revert Hf. vm_compute. intros [= <-]. done.
Defined.

(** ** The notebook's namespace *)




Lemma setvar_bound (name : string) (val : Obj) (ns : Frame) :
  (name, val) ∈ setvar name val ns.
Proof.
  induction ns as [|[k v] ns IH]; simpl; [left|].
  destruct (decide (k = name)) as [->|Hne]; [left | by right].
Qed.

Lemma setvar_other (name name' : string) (val val' : Obj) (ns : Frame) :
  name ≠ name' → (name, val) ∈ ns → (name, val) ∈ setvar name' val' ns.
Proof.
  intros Hne. induction ns as [|[k v] ns IH]; simpl; [by intros ?%elem_of_nil|].
  intros [[= <- <-]|Hin]%elem_of_cons.
  - rewrite decide_False by done. left.
  - destruct (decide (k = name')); right; auto.
Qed.






Section cell_inversion.
Context {T : Torch}.

(** The arguments of the two cells are always in the namespace. *)
Lemma matmul_arg_dict_bound a b ns :
  ∃ d, var_dict (setvar "b" b (setvar "a" a ns)) [a; b] = Ok d.
Proof.
  apply var_dict_bound. intros arg [->|Harg%list_elem_of_singleton]%elem_of_cons;
    [|subst arg].
  - exists ("a", a). split; [|done]. apply setvar_other; [done|]. apply setvar_bound.
  - exists ("b", b). split; [apply setvar_bound | done].
Qed.

Lemma vector_arg_dict_bound a ns : ∃ d, var_dict (setvar "a" a ns) [a] = Ok d.
Proof.
  apply var_dict_bound. intros arg ->%list_elem_of_singleton.
  exists ("a", a). split; [apply setvar_bound | done].
Qed.

Lemma rate_Raise count t scale e :
  rate count t scale = Raise e → e = OverflowError ∨ e = ZeroDivisionError.
Proof.
  unfold rate, int_truediv.
  destruct (float_of_int count) as [x|e'] eqn:Hx; simpl.
  - destruct (truediv x t) as [y|e''] eqn:Hy; simpl.
    + intros [-> _]%truediv_Raise. by right.
    + intros [= <-]. apply truediv_Raise in Hy as [-> _]. by right.
  - intros [= <-]. left. by eapply float_of_int_Raise.
Qed.




End cell_inversion.

Lemma setvar_elem_inv (name : string) (val : Obj) (ns : Frame) (item : string * Obj) :
  item ∈ setvar name val ns → item = (name, val) ∨ item ∈ ns.
Proof.
  induction ns as [|[k v] ns IH]; simpl.
  - intros ->%list_elem_of_singleton. by left.
  - destruct (decide (k = name)) as [->|Hne].
    + intros [->|Hin]%elem_of_cons; [by left | right; by right].
    + intros [->|Hin]%elem_of_cons; [right; left|].
      destruct (IH Hin); [by left | right; by right].
Qed.

(** X15. In the matrix-multiplication cell [var_dict(a, b)] binds the two
    new tensors under the names [a] and [b] of the timed statement, when
    they are two objects and no name of the namespace is bound to either. *)
Theorem matmul_arg_dict (a b : Obj) (globals_ : Frame) :
  (∀ item, item ∈ globals_ → ¬ py_is item.2 a ∧ ¬ py_is item.2 b) →
  ¬ py_is a b →
  var_dict (setvar "b" b (setvar "a" a globals_)) [a; b] =
    Ok {[ "a" := a; "b" := b ]}.
Proof.
  intros Hfresh Hab.
  rewrite (var_dict_unaliased _ [("a", a); ("b", b)]).
  { unfold py_dict. simpl. f_equal; by apply insert_insert_ne. }
  intros name arg [Heq|Heq%list_elem_of_singleton]%elem_of_cons;
    injection Heq as -> ->; split.
  - apply setvar_other; [done|]. apply setvar_bound.
  - intros item [->|[->|Hin]%setvar_elem_inv]%setvar_elem_inv His; [|done|].
    + destruct Hab. unfold py_is in *. by symmetry.
    + by destruct (Hfresh item Hin) as [? _].
  - apply setvar_bound.
  - intros item [->|[->|Hin]%setvar_elem_inv]%setvar_elem_inv His; [done| |].
    + by destruct Hab.
    + by destruct (Hfresh item Hin) as [_ ?].
Qed.

(** A namespace that still holds the tensor of an earlier cell under
    [a]. *)
Lemma matmul_arg_dict_witness :
  let old := mkObj 1 (Tensor [524288] float32) in
  let a := mkObj 2 (Tensor [128; 128] float32) in
  let b := mkObj 3 (Tensor [128; 128] float32) in
  var_dict (setvar "b" b (setvar "a" a [("a", old)])) [a; b] =
    Ok {[ "a" := a; "b" := b ]}.
Proof.
  intros old a b. apply (matmul_arg_dict a b [("a", old)]).
  - intros item ->%list_elem_of_singleton. split; by vm_compute.
  - by vm_compute.
Defined.





(** ** The shape of the cost model *)

(** X18. Both costs are proportional to the batch size, and for positive
    sizes the attention cost is at most the feed-forward cost exactly when
    the sequence is at most twice as long as the hidden size. *)
Theorem cost_model_shape (k b s h : Z) :
  0 < b → 0 < s → 0 < h →
  ffn_flop (k * b) s h = k * ffn_flop b s h ∧
  atten_flop (k * b) s h = k * atten_flop b s h ∧
  (atten_flop b s h ≤ ffn_flop b s h ↔ s ≤ 2 * h).
Proof.
  intros Hb Hs Hh. unfold ffn_flop, atten_flop. split_and!; [lia | lia |].
  assert (0 < b * s * h) by nia.
  replace (4 * b * h * s * s + 8 * b * s * h * h)
    with ((b * s * h) * (4 * s + 8 * h)) by lia.
  replace (16 * b * s * h * h) with ((b * s * h) * (16 * h)) by lia.
  split; intros; nia.
Qed.

(** BERT-large at sequence length 512, and a sequence of 4096. *)
Lemma cost_model_shape_witness :
  atten_flop 2 512 1024 ≤ ffn_flop 2 512 1024 ∧
  ¬ atten_flop 2 4096 1024 ≤ ffn_flop 2 4096 1024.
Proof.
  destruct (cost_model_shape 1 2 512 1024) as (_ & _ & Hshort); [lia..|].
  destruct (cost_model_shape 1 2 4096 1024) as (_ & _ & Hlong); [lia..|].
  split; [apply Hshort | rewrite Hlong]; lia.
Defined.

(** X19. [layer_benchmark] returns a table for any lists of sequence
    lengths and batch sizes, in a world where the library calls return and
    no measured time is zero, as soon as the cost of every point fits a
    [float]; the world it leaves is again such a world. *)
Theorem layer_benchmark_returns {T : Torch} (P : World → Prop)
    (layer : Obj) (h : Z) (seq_lens batch_sizes : list Z) (cross_attention : bool)
    (w : World) :
  (∀ shape dtype w, P w → ∃ X w', randn shape dtype w = (Ok X, w') ∧ P w') →
  (∀ X w, P w → ∃ X' w', half X w = (Ok X', w') ∧ P w') →
  (∀ stmt globals_ min_run_time w, P w →
     ∃ measurement w',
       blocked_autorange stmt globals_ min_run_time w = (Ok measurement, w') ∧
       PrimFloat.eqb (median measurement) 0 = false ∧ P w') →
  P w →
  (∀ s b, s ∈ seq_lens → b ∈ batch_sizes →
     ∃ f, forward cross_attention b s h = Ok f) →
  ∃ df w',
    layer_benchmark layer h seq_lens batch_sizes cross_attention w = (Ok df, w') ∧
    P w'.
Proof.
  intros Hrandn Hhalf Htimer HP Hcost.
  destruct (sweep_total P Hrandn Hhalf Htimer layer h cross_attention
              (encoder_state cross_attention) (list_prod seq_lens batch_sizes) ∅ w HP)
    as (df & w' & Hrun & HP' & _).
  { intros s b [Hs Hb]%elem_of_list_prod. by apply Hcost. }
  exists df, w'. by rewrite layer_benchmark_flat.
Qed.

(** The GPT-2 sweep on the scripted library with an empty script. *)
Lemma layer_benchmark_returns_witness :
  ∃ df w',
    gpt2_block_sweep (T := Sim.torch) (mkObj 0 (Module "GPT2Block")) 1024 Sim.quiet =
      (Ok df, w') ∧
    Sim.script w' = [].
Proof.
  apply (layer_benchmark_returns (T := Sim.torch) (λ w, Sim.script w = [])
           (mkObj 0 (Module "GPT2Block")) 1024 [512; 1024] [2; 4; 8; 16; 32; 64]
           false Sim.quiet).
  - intros shape dtype w Hw. by eexists _, _.
  - intros X w Hw. by eexists _, _.
  - intros stmt globals_ min_run_time w Hw. exists [1%float], w.
    simpl. unfold Sim.run_timer. by rewrite Hw.
  - reflexivity.
  - intros s b Hs Hb.
    repeat (apply elem_of_cons in Hs as [->|Hs]);
      try (by apply elem_of_nil in Hs);
      repeat (apply elem_of_cons in Hb as [->|Hb]);
      try (by apply elem_of_nil in Hb); eexists; evaluate.
Defined.
